(** * PrometheusReporter: a shallow embedding of
      [src/reporters/PrometheusReporter.js]

    The reporter turns finished tracing spans into Prometheus metrics.  This
    file embeds the reporter's static helpers ([endpointName], [metricName],
    [errorValue], [isHttpServerSpan]) and its instance methods
    ([reportFinish] and the private recording methods) and proves properties
    of them.

    Conventions of the embedding.
    - A JS string is a [string]: one [ascii] per code unit, so the strings
      of the embedding are those whose code units are below 256, read as
      Latin-1; [toUpperCase] and [toLowerCase] follow JavaScript on them.
    - A tag value is the tagged union string / number / boolean; [None] is
      [undefined].  Numeric tag values are integers ([Z]); a JS number that
      may be [NaN] is an [option Z].  Integers are exact: what the rounding
      and the exponent notation of doubles do from 10^21 on is not
      modelled, and the statements that depend on it carry that bound.
    - Durations and observed values are exact rationals ([Q]); the rounding
      of IEEE doubles is not modelled.
    - A JS exception is a [Throw] completion; methods that mutate the
      registry return the completion together with the reporter they leave
      behind.
    - Node's [URL] constructor, [Number.prototype.toString] on fractions and
      the regular expressions of the ignore rules are parameters.
    - The [Span] class and the metrics of [prom-client] (Histogram, Counter,
      Registry) are not among the sources and are modelled from the
      specification. *)

From Stdlib Require Import ZArith QArith String Ascii List Bool Lia.
From Stdlib Require Import DecimalString Sorting.Sorted.
From stdpp Require Import base option gmap strings.
Import ListNotations.

Local Open Scope string_scope.
Local Open Scope Z_scope.

(** ** JavaScript strings *)

Definition code (c : ascii) : N := N_of_ascii c.

Definition isUpper (c : ascii) : bool := (65 <=? code c)%N && (code c <=? 90)%N.
Definition isLower (c : ascii) : bool := (97 <=? code c)%N && (code c <=? 122)%N.
Definition isDigit (c : ascii) : bool := (48 <=? code c)%N && (code c <=? 57)%N.

(** The letters above ASCII: U+00C0 to U+00DE without the multiplication
    sign, and U+00E0 to U+00FE without the division sign. *)
Definition isUpperLatin1 (c : ascii) : bool :=
  (192 <=? code c)%N && (code c <=? 222)%N && negb (code c =? 215)%N.
Definition isLowerLatin1 (c : ascii) : bool :=
  (224 <=? code c)%N && (code c <=? 254)%N && negb (code c =? 247)%N.

Definition upcase (c : ascii) : ascii :=
  if isLower c || isLowerLatin1 c then ascii_of_N (code c - 32) else c.
Definition downcase (c : ascii) : ascii :=
  if isUpper c || isUpperLatin1 c then ascii_of_N (code c + 32) else c.

(** The upper-case form of one code unit.  The sharp s (U+00DF) becomes
    "SS".  The micro sign (U+00B5) and the y with diaeresis (U+00FF) have
    upper-case forms above 255 (U+039C, U+0178), which a code unit of this
    embedding cannot hold: they are kept, and like their upper-case forms
    they are outside [A-Za-z0-9\-_/.]. *)
Definition upper_unit (c : ascii) : string :=
  if (code c =? 223)%N then "SS" else String (upcase c) EmptyString.

Fixpoint string_map (f : ascii -> ascii) (s : string) : string :=
  match s with
  | EmptyString => EmptyString
  | String c r => String (f c) (string_map f r)
  end.

(** [String.prototype.toUpperCase] / [toLowerCase]. *)
Fixpoint toUpperCase (s : string) : string :=
  match s with
  | EmptyString => EmptyString
  | String c r => upper_unit c +:+ toUpperCase r
  end.
Definition toLowerCase : string -> string := string_map downcase.

(** [s.slice(0, -1)]: everything but the last character. *)
Fixpoint slice_0_m1 (s : string) : string :=
  match s with
  | EmptyString => EmptyString
  | String c r =>
      match r with
      | EmptyString => EmptyString
      | _ => String c (slice_0_m1 r)
      end
  end.

(** [!s] for a string. *)
Definition str_empty (s : string) : bool :=
  match s with EmptyString => true | _ => false end.

Definition DQUOTE : string := String "034"%char EmptyString.
Definition NL : string := String "010"%char EmptyString.

(** [lines.join(sep)]. *)
Fixpoint join (sep : string) (l : list string) : string :=
  match l with
  | [] => EmptyString
  | [x] => x
  | x :: r => x +:+ sep +:+ join sep r
  end.

(** [String(n)] for an integer [n]. *)
Definition Z_toString (n : Z) : string := NilZero.string_of_int (Z.to_int n).

(** *** [parseInt(_, 10)] *)

(** The white space and line terminators [parseInt] skips, among the code
    units below 256: TAB, LF, VT, FF, CR, SP and the no-break space
    (U+00A0). *)
Definition isWhiteSpace (c : ascii) : bool :=
  ((9 <=? code c)%N && (code c <=? 13)%N) || (code c =? 32)%N || (code c =? 160)%N.

Fixpoint trimStart (s : string) : string :=
  match s with
  | String c r => if isWhiteSpace c then trimStart r else s
  | EmptyString => EmptyString
  end.

(** The longest prefix of decimal digits, read left to right; [acc] is
    [None] until a digit has been seen. *)
Fixpoint parseDigits (s : string) (acc : option Z) : option Z :=
  match s with
  | String c r =>
      if isDigit c
      then parseDigits r (Some (10 * default 0 acc + Z.of_N (code c - 48)))
      else acc
  | EmptyString => acc
  end.

(** [parseInt(s, 10)] on a string: leading white space, an optional sign,
    then digits; [None] is [NaN]. *)
Definition parseInt_string (s : string) : option Z :=
  match trimStart s with
  | String "-" r => Z.opp <$> parseDigits r None
  | String "+" r => parseDigits r None
  | t => parseDigits t None
  end.

(** ** Tag values *)

Inductive value : Type :=
  | VString (s : string)
  | VNumber (n : Z)
  | VBoolean (b : bool).

(** ToBoolean. *)
Definition truthy (v : value) : bool :=
  match v with
  | VString s => negb (str_empty s)
  | VNumber n => negb (n =? 0)
  | VBoolean b => b
  end.

(** ToBoolean of a possibly [undefined] value. *)
Definition truthy_opt (o : option value) : bool :=
  match o with Some v => truthy v | None => false end.

Definition is_string (v : value) : bool :=
  match v with VString _ => true | _ => false end.

(** [parseInt(v, 10)] of a possibly [undefined] value: the argument is first
    converted to a string; [undefined], [true] and [false] have no digits.
    The result is the exact integer; it is the number JavaScript computes
    for integers of magnitude below 10^21, from where on a number is printed
    in exponent notation and a long digit string is rounded. *)
Definition parseInt (o : option value) : option Z :=
  match o with
  | Some (VString s) => parseInt_string s
  | Some (VNumber n) => Some n
  | Some (VBoolean _) => None
  | None => None
  end.

(** [parseInt(x / 100, 10)] for a number [x]: the quotient is printed and
    its integer part read back, which truncates toward zero; [NaN] stays
    [NaN].  This is the exact truncated quotient; it is what JavaScript
    computes for [x] of magnitude below 10^21 (from 10^23 on the quotient is
    printed in exponent notation and its leading digit is read back). *)
Definition parseInt_div100 (x : option Z) : option Z :=
  (fun n => Z.quot n 100) <$> x.

(** ** Exceptions and completions *)

Inductive Exception : Type :=
  | ERR_INVALID_URL
  | TypeError_undefined (property : string)
  | TypeError_not_a_function (property : string).

Inductive completion (A : Type) : Type :=
  | Return (a : A)
  | Throw (e : Exception).
Arguments Return {A} a.
Arguments Throw {A} e.

(** ** Spans and the opentracing tag names *)

(** Modelled from the spec: the [Span] class ([src/tracer/Span.js]) is not
    among the sources; the reporter reads [operationName()], [duration()]
    (milliseconds), [getTag(key)] and the context's [parentServiceKey()]. *)
Record Span : Type := mkSpan {
  operationName : string;
  duration : Q;
  _tags : gmap string value;
  parentServiceKey : option string
}.

Definition getTag (span : Span) (key : string) : option value := _tags span !! key.

(** The constants of [opentracing.Tags] the reporter uses. *)
Definition SPAN_KIND : string := "span.kind".
Definition SPAN_KIND_RPC_SERVER : string := "server".
Definition HTTP_URL : string := "http.url".
Definition HTTP_METHOD : string := "http.method".
Definition HTTP_STATUS_CODE : string := "http.status_code".

(** ** Module constants *)

Definition DURATION_HISTOGRAM_BUCKETS : list Q :=
  [5 # 1000; 1 # 100; 25 # 1000; 5 # 100; 1 # 10; 25 # 100; 5 # 10;
   1 # 1; 25 # 10; 5 # 1; 10 # 1]%Q.
Definition METRICS_NAME_OPERATION : string := "operations".
Definition METRICS_NAME_REQUESTS : string := "requests".
Definition METRICS_NAME_HTTP_REQUEST_LATENCY : string := "request_latency".
Definition METRICS_NAME_HTTP_STATUS_CODES : string := "http_requests".
Definition LABEL_PARENT_SERVICE_UNKNOWN : string := "unknown".
Definition LABEL_OTHER : string := "other".

(** [NORM_RE = /[^A-Za-z0-9\-_/.]/g]: the characters the pattern matches. *)
Definition NORM_RE (c : ascii) : bool :=
  negb (isUpper c || isLower c || isDigit c
        || (code c =? 45)%N || (code c =? 95)%N || (code c =? 47)%N
        || (code c =? 46)%N).

(** [NS_RE = /[.-]/g]. *)
Definition NS_RE (c : ascii) : bool := (code c =? 46)%N || (code c =? 45)%N.

(** [s.replace(re, by)] for a global single-character class [re]. *)
Definition replace (re : ascii -> bool) (by_ : ascii) (s : string) : string :=
  string_map (fun c => if re c then by_ else c) s.

(** ** Static helpers *)

Definition getParentService (span : Span) : string :=
  match parentServiceKey span with
  | Some k => if str_empty k then LABEL_PARENT_SERVICE_UNKNOWN else k
  | None => LABEL_PARENT_SERVICE_UNKNOWN
  end.

Definition metricName (name namespace : string) : string :=
  let ns := fun nm => replace NS_RE "_" nm in
  if str_empty namespace then ns name
  else if negb (str_empty name) then ns namespace
  else ns namespace +:+ ":" +:+ ns name.

Definition errorValue (span : Span) : string :=
  match getTag span "error" with
  | None => "false"
  | Some err =>
      if negb (truthy err)
         || match err with
            | VString s => negb (String.eqb (toLowerCase s) "true")
            | _ => false
            end
      then "false"
      else "true"
  end.

(** [x === Tags.SPAN_KIND_RPC_SERVER]. *)
Definition strict_eq_string (o : option value) (s : string) : bool :=
  match o with
  | Some (VString t) => String.eqb t s
  | _ => false
  end.

Definition isHttpServerSpan (span : Span) : bool :=
  let rpcServer := strict_eq_string (getTag span SPAN_KIND) SPAN_KIND_RPC_SERVER in
  let httpTags :=
    truthy_opt (getTag span HTTP_URL)
    || truthy_opt (getTag span HTTP_METHOD)
    || truthy_opt (getTag span HTTP_STATUS_CODE) in
  rpcServer && httpTags.

(** ** Finite maps that remember insertion order

    A JS object used as a dictionary and enumerated with [Object.entries] /
    [Object.keys]: an association list with one binding per key, a new key
    going to the end. *)

Section AList.
Context {K V : Type} `{EqDecision K}.

Fixpoint alookup (k : K) (l : list (K * V)) : option V :=
  match l with
  | [] => None
  | (k', v) :: r => if decide (k = k') then Some v else alookup k r
  end.

Fixpoint aset (k : K) (v : V) (l : list (K * V)) : list (K * V) :=
  match l with
  | [] => [(k, v)]
  | (k', v') :: r =>
      if decide (k = k') then (k, v) :: r else (k', v') :: aset k v r
  end.
End AList.

(** ** The metrics of [prom-client] *)

(** Modelled from the spec: [prom-client]'s Histogram is a dependency, not
    among the sources.  Per label set it holds the cumulative count of every
    declared bucket, the running sum and the running count (spec, data
    model); the implicit [+Inf] bucket is the count. *)
Record HistogramValue : Type := mkHistogramValue {
  bucketValues : list Z;
  sum : Q;
  count : Z
}.

(** Modelled from the spec: a histogram has a name, a help text, label names
    and ascending finite bucket bounds, and holds one [HistogramValue] per
    label set, in the order the label sets were first observed. *)
Record Histogram : Type := mkHistogram {
  h_name : string;
  h_help : string;
  h_labelNames : list string;
  upperBounds : list Q;
  h_hashMap : list (list string * HistogramValue)
}.

(** Modelled from the spec: [prom-client]'s Counter, one integer per label
    set. *)
Record Counter : Type := mkCounter {
  c_name : string;
  c_help : string;
  c_labelNames : list string;
  c_hashMap : list (list string * Z)
}.

Inductive Metric : Type :=
  | MHistogram (h : Histogram)
  | MCounter (c : Counter).

Definition metric_name (m : Metric) : string :=
  match m with
  | MHistogram h => h_name h
  | MCounter c => c_name c
  end.

(** The values a label set starts from on its first observation. *)
Definition createBaseValues (bounds : list Q) : HistogramValue :=
  {| bucketValues := map (fun _ => 0) bounds; sum := 0%Q; count := 0 |}.

(** One observation: every bucket whose bound is at least [v] counts it. *)
Definition observeValue (bounds : list Q) (v : Q) (hv : HistogramValue) : HistogramValue :=
  {| bucketValues :=
       zip_with (fun b n => if Qle_bool v b then n + 1 else n) bounds (bucketValues hv);
     sum := (sum hv + v)%Q;
     count := count hv + 1 |}.

(** Modelled from the spec: [histogram.labels(...labels).observe(v)]. *)
Definition observe (h : Histogram) (labels : list string) (v : Q) : Histogram :=
  let cur := default (createBaseValues (upperBounds h)) (alookup labels (h_hashMap h)) in
  {| h_name := h_name h; h_help := h_help h; h_labelNames := h_labelNames h;
     upperBounds := upperBounds h;
     h_hashMap := aset labels (observeValue (upperBounds h) v cur) (h_hashMap h) |}.

(** Modelled from the spec: [counter.labels(...labels).inc()]. *)
Definition inc (c : Counter) (labels : list string) : Counter :=
  {| c_name := c_name c; c_help := c_help c; c_labelNames := c_labelNames c;
     c_hashMap := aset labels (default 0 (alookup labels (c_hashMap c)) + 1) (c_hashMap c) |}.

(** Modelled from the spec: [prom-client]'s Registry, metric name to metric,
    in registration order. *)
Definition Registry : Type := list (string * Metric).

Definition getSingleMetric (r : Registry) (name : string) : option Metric :=
  alookup name r.

(** [registers: [registry]] in a metric's constructor.  The callers register
    a name only after [getSingleMetric] found nothing. *)
Definition registerMetric (r : Registry) (m : Metric) : Registry :=
  (r ++ [(metric_name m, m)])%list.

(** A metric object is shared between the registry and whoever holds a
    reference to it: a reference is the metric's name, and a method called
    through the reference rewrites the registry's binding. *)
Definition Registry_update (name : string) (f : Metric -> Metric) (r : Registry) : Registry :=
  match alookup name r with
  | Some m => aset name (f m) r
  | None => r
  end.

(** The reporter only calls [observe] on the names it registers as
    histograms and [inc] on those it registers as counters; the other pairing
    does not arise and is left alone here. *)
Definition Metric_observe (labels : list string) (v : Q) (m : Metric) : Metric :=
  match m with
  | MHistogram h => MHistogram (observe h labels v)
  | MCounter _ => m
  end.

Definition Metric_inc (labels : list string) (m : Metric) : Metric :=
  match m with
  | MCounter c => MCounter (inc c labels)
  | MHistogram _ => m
  end.

(** ** Parameters of the platform *)

(** What [new URL(x)] exposes to the reporter. *)
Record URL : Type := mkURL { protocol : string; pathname : string }.

(** A regular expression, as the predicate "[s.match(re)] is not null". *)
Definition RegExp : Type := string -> bool.

(** An instance of the [URL] constructor for the examples.  It follows Node
    on absolute [http] / [https] URLs [scheme://authority/path?query#frag]
    whose path needs no escaping or dot-segment removal, and rejects
    everything else. *)
Fixpoint split_at (p : ascii -> bool) (s : string) : string * string :=
  match s with
  | EmptyString => (EmptyString, EmptyString)
  | String c r =>
      if p c then (EmptyString, s)
      else let '(a, b) := split_at p r in (String c a, b)
  end.

Definition sample_URL (v : value) : option URL :=
  match v with
  | VString s =>
      let '(scheme, rest) := split_at (fun c => (code c =? 58)%N) s in
      let scheme := toLowerCase scheme in
      if String.eqb scheme "http" || String.eqb scheme "https" then
        match rest with
        | String ":" (String "/" (String "/" r)) =>
            let '(authority, tail) :=
              split_at (fun c => (code c =? 47)%N || (code c =? 63)%N || (code c =? 35)%N) r in
            let '(path, _) :=
              split_at (fun c => (code c =? 63)%N || (code c =? 35)%N) tail in
            if str_empty authority then None
            else Some {| protocol := scheme +:+ ":";
                         pathname := if str_empty path then "/" else path |}
        | _ => None
        end
      else None
  | _ => None
  end.

(** An instance of number printing for the examples: the decimal expansion
    of a rational, up to twenty fractional digits. *)
Fixpoint frac_digits (fuel : nat) (r d : Z) : string :=
  match fuel with
  | O => EmptyString
  | S f =>
      if r =? 0 then EmptyString
      else Z_toString (10 * r / d) +:+ frac_digits f ((10 * r) mod d) d
  end.

Definition Q_toString (q : Q) : string :=
  let n := Qnum q in
  let d := Zpos (Qden q) in
  let a := Z.abs n in
  (if n <? 0 then "-" else EmptyString)
  +:+ Z_toString (a / d)
  +:+ (if a mod d =? 0 then EmptyString else "." +:+ frac_digits 20 (a mod d) d).

(** An instance of a pattern for the examples: [/lit/] for a literal
    [lit], which matches the strings that contain it. *)
Definition prefixb (p s : string) : bool := String.prefix p s.

Fixpoint re_literal (lit : string) (s : string) : bool :=
  prefixb lit s
  || match s with
     | EmptyString => false
     | String _ r => re_literal lit r
     end.

(** [/^$/]. *)
Definition re_empty : RegExp := str_empty.

(** ** The reporter *)

Record PrometheusReporter : Type := mkReporter {
  _registry : Registry;
  ignoreTags : list (string * RegExp)
}.

Definition set_registry (this : PrometheusReporter) (r : Registry) : PrometheusReporter :=
  {| _registry := r; ignoreTags := ignoreTags this |}.

(** [metric.labels(...labels).observe(v)] through a reference [metric]. *)
Definition labels_observe (metric : string) (labels : list string) (v : Q)
    (this : PrometheusReporter) : PrometheusReporter :=
  set_registry this (Registry_update metric (Metric_observe labels v) (_registry this)).

(** [metric.labels(...labels).inc()] through a reference [metric]. *)
Definition labels_inc (metric : string) (labels : list string)
    (this : PrometheusReporter) : PrometheusReporter :=
  set_registry this (Registry_update metric (Metric_inc labels) (_registry this)).

(** The four singletons: each returns the reporter, with the metric
    registered if it was not, and the reference to the metric. *)
Definition _metricsOperationDurationSeconds (this : PrometheusReporter)
    : PrometheusReporter * string :=
  match getSingleMetric (_registry this) METRICS_NAME_OPERATION with
  | Some _ => (this, METRICS_NAME_OPERATION)
  | None =>
      (set_registry this
         (registerMetric (_registry this)
            (MHistogram {| h_name := METRICS_NAME_OPERATION;
                           h_help := "Duration of operations in second";
                           h_labelNames := ["name"];
                           upperBounds := DURATION_HISTOGRAM_BUCKETS;
                           h_hashMap := [] |})),
       METRICS_NAME_OPERATION)
  end.

Definition _metricsHttpRequestLatency (this : PrometheusReporter)
    : PrometheusReporter * string :=
  match getSingleMetric (_registry this) METRICS_NAME_HTTP_REQUEST_LATENCY with
  | Some _ => (this, METRICS_NAME_HTTP_REQUEST_LATENCY)
  | None =>
      (set_registry this
         (registerMetric (_registry this)
            (MHistogram {| h_name := METRICS_NAME_HTTP_REQUEST_LATENCY;
                           h_help := "Duration of HTTP requests in second distinguished by their endpoint and error status";
                           h_labelNames := ["endpoint"; "error"];
                           upperBounds := DURATION_HISTOGRAM_BUCKETS;
                           h_hashMap := [] |})),
       METRICS_NAME_HTTP_REQUEST_LATENCY)
  end.

Definition _metricsHttpRequestCount (this : PrometheusReporter)
    : PrometheusReporter * string :=
  match getSingleMetric (_registry this) METRICS_NAME_REQUESTS with
  | Some _ => (this, METRICS_NAME_REQUESTS)
  | None =>
      (set_registry this
         (registerMetric (_registry this)
            (MCounter {| c_name := METRICS_NAME_REQUESTS;
                         c_help := "Counts the number of requests made distinguished by their endpoint and error status";
                         c_labelNames := ["endpoint"; "error"];
                         c_hashMap := [] |})),
       METRICS_NAME_REQUESTS)
  end.

Definition _metricsHttpRequestStatusCodes (this : PrometheusReporter)
    : PrometheusReporter * string :=
  match getSingleMetric (_registry this) METRICS_NAME_HTTP_STATUS_CODES with
  | Some _ => (this, METRICS_NAME_HTTP_STATUS_CODES)
  | None =>
      (set_registry this
         (registerMetric (_registry this)
            (MCounter {| c_name := METRICS_NAME_HTTP_STATUS_CODES;
                         c_help := "Counts the responses distinguished by endpoint and status code bucket";
                         c_labelNames := ["endpoint"; "status_code"];
                         c_hashMap := [] |})),
       METRICS_NAME_HTTP_STATUS_CODES)
  end.

(** [new PrometheusReporter({ ignoreTags })]; [ignoreTags] is given in the
    order of [Object.entries]. *)
Definition new_PrometheusReporter (ignoreTags : list (string * RegExp)) : PrometheusReporter :=
  fst (_metricsOperationDurationSeconds {| _registry := []; ignoreTags := ignoreTags |}).

(** [array.some(callback)]: stops at the first element whose callback is
    truthy; an exception of the callback ends the call. *)
Fixpoint some {A : Type} (callback : A -> completion bool) (l : list A) : completion bool :=
  match l with
  | [] => Return false
  | x :: rest =>
      match callback x with
      | Throw e => Throw e
      | Return true => Return true
      | Return false => some callback rest
      end
  end.

(** The callback of the ignore filter, [tagValue && tagValue.match(regexp)]
    as a boolean: only strings have a [match] method. *)
Definition ignoreCallback (span : Span) (entry : string * RegExp) : completion bool :=
  let '(tagKey, regexp) := entry in
  match getTag span tagKey with
  | None => Return false
  | Some tagValue =>
      if truthy tagValue then
        match tagValue with
        | VString s => Return (regexp s)
        | _ => Throw (TypeError_not_a_function "match")
        end
      else Return false
  end.

Definition isIgnored (entries : list (string * RegExp)) (span : Span) : completion bool :=
  some (ignoreCallback span) entries.

Definition _reportOperationFinish (this : PrometheusReporter) (span : Span)
    : PrometheusReporter :=
  let '(this, metric) := _metricsOperationDurationSeconds this in
  labels_observe metric [operationName span] (duration span / 1000)%Q this.

Definition _recordHttpRequestMetrics (this : PrometheusReporter)
    (endpoint err : string) (duration : Q) : PrometheusReporter :=
  let '(this, counter) := _metricsHttpRequestCount this in
  let this := labels_inc counter [endpoint; err] this in
  let '(this, histogram) := _metricsHttpRequestLatency this in
  labels_observe histogram [endpoint; err] duration this.

Definition _recordHttpResponseMetrics (this : PrometheusReporter)
    (endpoint : string) (statusCode : option Z) : PrometheusReporter :=
  match parseInt_div100 statusCode with
  | Some mod_ =>
      if (2 <=? mod_) && (mod_ <=? 5) then
        let '(this, metric) := _metricsHttpRequestStatusCodes this in
        labels_inc metric [endpoint; Z_toString mod_ +:+ "xx"] this
      else this
  | None => this
  end.

Section Platform.

(** [new URL(x)] for a tag value [x]; [None] when the constructor throws. *)
Variable URL_new : value -> option URL.

(** [String(x)] for a number [x], as the exposition format prints it. *)
Variable Number_toString : Q -> string.

Definition endpointName (span : Span) : completion string :=
  match getTag span HTTP_URL with
  | None => Return LABEL_OTHER
  | Some reqUrl =>
      if negb (truthy reqUrl) then Return LABEL_OTHER
      else
        match URL_new reqUrl with
        | None => Throw ERR_INVALID_URL
        | Some url =>
            let scheme := toUpperCase (slice_0_m1 (protocol url)) in
            match getTag span HTTP_METHOD with
            | None => Throw (TypeError_undefined "toUpperCase")
            | Some (VString m) =>
                let method := toUpperCase m in
                let path := if str_empty (pathname url) then "/" else pathname url in
                let name := scheme +:+ " " +:+ method +:+ " " +:+ path in
                Return (replace NORM_RE "-" name)
            | Some _ => Throw (TypeError_not_a_function "toUpperCase")
            end
        end
  end.

Definition _reportHttpRequestFinish (this : PrometheusReporter) (span : Span)
    : completion unit * PrometheusReporter :=
  match endpointName span with
  | Throw e => (Throw e, this)
  | Return endpoint =>
      let err := errorValue span in
      let this := _recordHttpRequestMetrics this endpoint err (duration span / 1000)%Q in
      let this := _recordHttpResponseMetrics this endpoint
                    (parseInt (getTag span HTTP_STATUS_CODE)) in
      (Return tt, this)
  end.

Definition reportFinish (this : PrometheusReporter) (span : Span)
    : completion unit * PrometheusReporter :=
  match isIgnored (ignoreTags this) span with
  | Throw e => (Throw e, this)
  | Return true => (Return tt, this)
  | Return false =>
      if isHttpServerSpan span then _reportHttpRequestFinish this span
      else (Return tt, _reportOperationFinish this span)
  end.

(** The reporter after a sequence of [reportFinish] calls; a call that
    throws leaves the reporter as it was when the exception was raised. *)
Definition reportAll (this : PrometheusReporter) (spans : list Span) : PrometheusReporter :=
  fold_left (fun this span => snd (reportFinish this span)) spans this.

(** *** The exposition format *)

Definition labelPairs (names values : list string) : list string :=
  zip_with (fun n v => n +:+ "=" +:+ DQUOTE +:+ v +:+ DQUOTE) names values.

Definition sample (name : string) (pairs : list string) (v : string) : string :=
  (if pairs is [] then name else name +:+ "{" +:+ join "," pairs +:+ "}")
  +:+ " " +:+ v.

(** The samples of one label set, in the order the lines are written: the
    declared buckets, the [+Inf] bucket, the sum and the count. *)
Definition bucketCounts (hv : HistogramValue) : list Z :=
  (bucketValues hv ++ [count hv])%list.

Definition Histogram_lines (h : Histogram) : list string :=
  flat_map
    (fun '(labels, hv) =>
       let pairs := labelPairs (h_labelNames h) labels in
       let le := fun b => "le=" +:+ DQUOTE +:+ b +:+ DQUOTE in
       (zip_with
          (fun b n => sample (h_name h +:+ "_bucket") (le b :: pairs) (Z_toString n))
          ((Number_toString <$> upperBounds h) ++ ["+Inf"]) (bucketCounts hv)
        ++ [sample (h_name h +:+ "_sum") pairs (Number_toString (sum hv));
            sample (h_name h +:+ "_count") pairs (Z_toString (count hv))])%list)
    (h_hashMap h).

Definition Counter_lines (c : Counter) : list string :=
  (fun '(labels, n) => sample (c_name c) (labelPairs (c_labelNames c) labels) (Z_toString n))
    <$> c_hashMap c.

Definition Metric_block (m : Metric) : string :=
  match m with
  | MHistogram h =>
      join NL (("# HELP " +:+ h_name h +:+ " " +:+ h_help h)
               :: ("# TYPE " +:+ h_name h +:+ " histogram")
               :: Histogram_lines h)
  | MCounter c =>
      join NL (("# HELP " +:+ c_name c +:+ " " +:+ c_help c)
               :: ("# TYPE " +:+ c_name c +:+ " counter")
               :: Counter_lines c)
  end.

(** Modelled from the spec: [registry.metrics()], the blocks of the
    registered metrics in registration order, a blank line between two
    blocks and one newline at the end. *)
Definition Registry_metrics (r : Registry) : string :=
  slice_0_m1
    (fold_right (fun '(_, m) acc => Metric_block m +:+ NL +:+ NL +:+ acc) EmptyString r).

Definition metrics (this : PrometheusReporter) : string :=
  Registry_metrics (_registry this).


(** *** What the calls record, read off the spans

    The vocabulary of the statements below: the observations a sequence of
    calls makes under one histogram and one label set. *)

(** The histogram, label set and value that [reportFinish(span)] observes,
    if the call gets as far as observing. *)
Definition observation (rules : list (string * RegExp)) (span : Span)
    : option (string * list string * Q) :=
  match isIgnored rules span with
  | Return false =>
      if isHttpServerSpan span then
        match endpointName span with
        | Return endpoint =>
            Some (METRICS_NAME_HTTP_REQUEST_LATENCY,
                  [endpoint; errorValue span], (duration span / 1000)%Q)
        | Throw _ => None
        end
      else Some (METRICS_NAME_OPERATION, [operationName span], (duration span / 1000)%Q)
  | _ => None
  end.

Definition events (rules : list (string * RegExp)) (spans : list Span)
    : list (string * list string * Q) :=
  omap (observation rules) spans.

End Platform.

(** The values of the events of histogram [name] under [labels]. *)
Definition valuesOf (name : string) (labels : list string)
    (log : list (string * list string * Q)) : list Q :=
  omap (fun '(n, l, v) => if decide (n = name /\ l = labels) then Some v else None) log.

Definition observed (URL_new : value -> option URL) (rules : list (string * RegExp))
    (spans : list Span) (name : string) (labels : list string) : list Q :=
  valuesOf name labels (events URL_new rules spans).

(** The arithmetic sum of a list of values. *)
Definition Qsum (l : list Q) : Q := fold_right Qplus 0%Q l.

(** How many of the values are at most [b]. *)
Definition count_le (vals : list Q) (b : Q) : Z :=
  Z.of_nat (length (List.filter (fun v => Qle_bool v b) vals)).

(** The stored values of a label set after the observations [vals]. *)
Definition hv_of (bounds : list Q) (vals : list Q) : HistogramValue :=
  fold_left (fun hv v => observeValue bounds v hv) vals (createBaseValues bounds).

Definition entry_of (bounds : list Q) (vals : list Q) : option HistogramValue :=
  match vals with
  | [] => None
  | _ => Some (hv_of bounds vals)
  end.

(** The metrics the singletons create. *)
Definition fresh_operations : Metric :=
  MHistogram {| h_name := METRICS_NAME_OPERATION;
                h_help := "Duration of operations in second";
                h_labelNames := ["name"];
                upperBounds := DURATION_HISTOGRAM_BUCKETS;
                h_hashMap := [] |}.

Definition fresh_request_latency : Metric :=
  MHistogram {| h_name := METRICS_NAME_HTTP_REQUEST_LATENCY;
                h_help := "Duration of HTTP requests in second distinguished by their endpoint and error status";
                h_labelNames := ["endpoint"; "error"];
                upperBounds := DURATION_HISTOGRAM_BUCKETS;
                h_hashMap := [] |}.

Definition fresh_requests : Metric :=
  MCounter {| c_name := METRICS_NAME_REQUESTS;
              c_help := "Counts the number of requests made distinguished by their endpoint and error status";
              c_labelNames := ["endpoint"; "error"];
              c_hashMap := [] |}.

Definition fresh_http_requests : Metric :=
  MCounter {| c_name := METRICS_NAME_HTTP_STATUS_CODES;
              c_help := "Counts the responses distinguished by endpoint and status code bucket";
              c_labelNames := ["endpoint"; "status_code"];
              c_hashMap := [] |}.

(** Register [fresh] under [name] unless the name is taken: the common
    shape of the four singletons. *)
Definition ensure (name : string) (fresh : Metric) (r : Registry) : Registry :=
  match getSingleMetric r name with
  | Some _ => r
  | None => (r ++ [(name, fresh)])%list
  end.

(** Reading a counter and a histogram; a label set never touched reads as
    zero. *)
Definition Registry_counterValue (r : Registry) (name : string) (labels : list string) : Z :=
  match getSingleMetric r name with
  | Some (MCounter c) => default 0 (alookup labels (c_hashMap c))
  | _ => 0
  end.

Definition Registry_histogramValue (r : Registry) (name : string) (labels : list string)
    : HistogramValue :=
  match getSingleMetric r name with
  | Some (MHistogram h) =>
      default (createBaseValues (upperBounds h)) (alookup labels (h_hashMap h))
  | _ => createBaseValues DURATION_HISTOGRAM_BUCKETS
  end.

Definition counterValue (this : PrometheusReporter) : string -> list string -> Z :=
  Registry_counterValue (_registry this).

Definition histogramValue (this : PrometheusReporter) : string -> list string -> HistogramValue :=
  Registry_histogramValue (_registry this).

(** The registry each recording method leaves behind. *)
Definition operation_registry (r : Registry) (span : Span) : Registry :=
  Registry_update METRICS_NAME_OPERATION
    (Metric_observe [operationName span] (duration span / 1000)%Q)
    (ensure METRICS_NAME_OPERATION fresh_operations r).

Definition request_registry (r : Registry) (endpoint err : string) (d : Q) : Registry :=
  Registry_update METRICS_NAME_HTTP_REQUEST_LATENCY (Metric_observe [endpoint; err] d)
    (ensure METRICS_NAME_HTTP_REQUEST_LATENCY fresh_request_latency
       (Registry_update METRICS_NAME_REQUESTS (Metric_inc [endpoint; err])
          (ensure METRICS_NAME_REQUESTS fresh_requests r))).

Definition response_registry (r : Registry) (endpoint : string) (statusCode : option Z)
    : Registry :=
  match parseInt_div100 statusCode with
  | Some mod_ =>
      if (2 <=? mod_) && (mod_ <=? 5) then
        Registry_update METRICS_NAME_HTTP_STATUS_CODES
          (Metric_inc [endpoint; Z_toString mod_ +:+ "xx"])
          (ensure METRICS_NAME_HTTP_STATUS_CODES fresh_http_requests r)
      else r
  | None => r
  end.

(** The hundreds digit of an integer, in the usual sense. *)
Definition hundreds_digit (n : Z) : Z := (Z.abs n / 100) mod 10.

(** The character class [A-Za-z0-9\-_/.], letter by letter. *)
Definition allowed_chars : string :=
  "ABCDEFGHIJKLMNOPQRSTUVWXYZabcdefghijklmnopqrstuvwxyz0123456789-_/.".

Definition allowed (c : ascii) : bool :=
  existsb (Ascii.eqb c) (list_ascii_of_string allowed_chars).

(** Every character outside the class becomes a dash. *)
Definition normalizeIdentifier (raw : string) : string :=
  string_map (fun c => if allowed c then c else "-"%char) raw.

(** Every dot and dash becomes an underscore. *)
Definition underscored (s : string) : string :=
  string_map
    (fun c => if Ascii.eqb c "."%char || Ascii.eqb c "-"%char then "_"%char else c) s.

(** Two characters that are equal, or the two cases of one letter. *)
Definition same_letter (c d : ascii) : bool :=
  Ascii.eqb c d
  || (isUpper c && (code d =? code c + 32)%N)
  || (isLower c && (code c =? code d + 32)%N).

(** Case-insensitive equality of strings. *)
Fixpoint eq_nocase (a b : string) : bool :=
  match a, b with
  | EmptyString, EmptyString => true
  | String c a', String d b' => same_letter c d && eq_nocase a' b'
  | _, _ => false
  end.

(** Spans for the examples: a name, a duration and the tags set on it. *)
Definition span_of (name : string) (d : Q) (tags : list (string * value)) : Span :=
  {| operationName := name; duration := d; _tags := list_to_map tags;
     parentServiceKey := None |}.

Definition httpSpan (url : string) (status : Z) (d : Q) : Span :=
  span_of "http_request" d
    [(HTTP_URL, VString url); (HTTP_METHOD, VString "GET");
     (HTTP_STATUS_CODE, VNumber status); (SPAN_KIND, VString SPAN_KIND_RPC_SERVER)].

(** The rule finds a non-empty string under its key and the pattern matches
    it. *)
Definition rule_matches (span : Span) (rule : string * RegExp) : bool :=
  match getTag span rule.1 with
  | Some (VString s) => negb (str_empty s) && rule.2 s
  | _ => false
  end.

(** A truthy value that is not a string: it has no [match] method. *)
Definition no_match_method (o : option value) : bool :=
  match o with
  | Some v => truthy v && negb (is_string v)
  | None => false
  end.

(** The registry agrees with a log of histogram events: every histogram is
    one of the two the reporter creates, has the module's buckets and holds,
    per label set, what the logged values of that label set add up to;
    every counter is one of the two counters; and a name not yet registered
    has no event. *)
Definition registry_agrees (r : Registry) (log : list (string * list string * Q)) : Prop :=
  forall name,
    match getSingleMetric r name with
    | Some (MHistogram h) =>
        (name = METRICS_NAME_OPERATION \/ name = METRICS_NAME_HTTP_REQUEST_LATENCY)
        /\ upperBounds h = DURATION_HISTOGRAM_BUCKETS
        /\ forall labels,
             alookup labels (h_hashMap h)
             = entry_of DURATION_HISTOGRAM_BUCKETS (valuesOf name labels log)
    | Some (MCounter _) =>
        name = METRICS_NAME_REQUESTS \/ name = METRICS_NAME_HTTP_STATUS_CODES
    | None =>
        name <> METRICS_NAME_OPERATION /\ forall labels, valuesOf name labels log = []
    end.

(** The error tag holds what makes a request count as failed: a string equal
    to "true" up to case, or a truthy value that is not a string. *)
Definition error_tag_true (o : option value) : Prop :=
  exists v, o = Some v /\
    ((exists s, v = VString s /\ eq_nocase s "true" = true)
     \/ (is_string v = false /\ truthy v = true)).

(** Every character of a string passes a test. *)
Fixpoint string_forallb (p : ascii -> bool) (s : string) : bool :=
  match s with
  | EmptyString => true
  | String c r => p c && string_forallb p r
  end.

(** The label [_recordHttpResponseMetrics] increments for a status code, if
    it increments one. *)
Definition status_class (statusCode : option Z) : option string :=
  match parseInt_div100 statusCode with
  | Some mod_ =>
      if (2 <=? mod_) && (mod_ <=? 5) then Some (Z_toString mod_ +:+ "xx") else None
  | None => None
  end.

(** The four singletons of the reporter. *)
Definition singletons : list (PrometheusReporter -> PrometheusReporter * string) :=
  [_metricsOperationDurationSeconds; _metricsHttpRequestLatency;
   _metricsHttpRequestCount; _metricsHttpRequestStatusCodes].

(** The names of the registered metrics, in registration order. *)
Definition registry_names (this : PrometheusReporter) : list string :=
  map fst (_registry this).

(** A name is added to a list of names unless it is there. *)
Definition ensure_name (name : string) (names : list string) : list string :=
  if existsb (String.eqb name) names then names else (names ++ [name])%list.

(** A code unit of the ASCII range. *)
Definition is_ascii (c : ascii) : bool := (code c <? 128)%N.

(** * Properties *)

(** ** Characters and strings *)

Lemma NORM_RE_allowed (c : ascii) : NORM_RE c = negb (allowed c).
Proof. destruct c as [[] [] [] [] [] [] [] []]; reflexivity. Qed.

Lemma NS_RE_spec (c : ascii) :
  NS_RE c = (Ascii.eqb c "."%char || Ascii.eqb c "-"%char).
Proof. destruct c as [[] [] [] [] [] [] [] []]; reflexivity. Qed.

Lemma string_map_ext (f g : ascii -> ascii) (s : string) :
  (forall c, f c = g c) -> string_map f s = string_map g s.
Proof. intros E. induction s as [|c s IH]; simpl; [reflexivity | now rewrite E, IH]. Qed.

Lemma replace_NORM_RE (s : string) : replace NORM_RE "-" s = normalizeIdentifier s.
Proof.
  apply string_map_ext. intros c. rewrite NORM_RE_allowed.
  now destruct (allowed c).
Qed.

Lemma replace_NS_RE (s : string) : replace NS_RE "_" s = underscored s.
Proof. apply string_map_ext. intros c. now rewrite NS_RE_spec. Qed.

Lemma slice_0_m1_app_char (s : string) (c : ascii) :
  slice_0_m1 (s +:+ String c EmptyString) = s.
Proof.
  induction s as [|d s IH]; simpl; [reflexivity |].
  rewrite IH. destruct s; reflexivity.
Qed.

Lemma str_empty_true (s : string) : str_empty s = true <-> s = EmptyString.
Proof. destruct s; simpl; split; congruence. Qed.

Lemma str_empty_false (s : string) : str_empty s = false <-> s <> EmptyString.
Proof. destruct s; simpl; split; congruence. Qed.

Lemma length_append (s t : string) :
  String.length (s +:+ t) = (String.length s + String.length t)%nat.
Proof. induction s as [|c s IH]; simpl; [reflexivity | now rewrite IH]. Qed.

Lemma downcase_t (c : ascii) : Ascii.eqb (downcase c) "t" = same_letter c "t".
Proof. destruct c as [[] [] [] [] [] [] [] []]; reflexivity. Qed.
Lemma downcase_r (c : ascii) : Ascii.eqb (downcase c) "r" = same_letter c "r".
Proof. destruct c as [[] [] [] [] [] [] [] []]; reflexivity. Qed.
Lemma downcase_u (c : ascii) : Ascii.eqb (downcase c) "u" = same_letter c "u".
Proof. destruct c as [[] [] [] [] [] [] [] []]; reflexivity. Qed.
Lemma downcase_e (c : ascii) : Ascii.eqb (downcase c) "e" = same_letter c "e".
Proof. destruct c as [[] [] [] [] [] [] [] []]; reflexivity. Qed.

Lemma toLowerCase_true (s : string) :
  String.eqb (toLowerCase s) "true" = eq_nocase s "true".
Proof.
  destruct s as [|c1 [|c2 [|c3 [|c4 [|c5 s]]]]]; try reflexivity; cbn [toLowerCase string_map String.eqb eq_nocase].
  all: rewrite ?downcase_t, ?downcase_r, ?downcase_u, ?downcase_e.
  all: repeat match goal with |- context [same_letter ?a ?b] => destruct (same_letter a b) end; reflexivity.
Qed.

Lemma length_string_map (f : ascii -> ascii) (s : string) :
  String.length (string_map f s) = String.length s.
Proof. induction s as [|c s IH]; simpl; [reflexivity | now rewrite IH]. Qed.

(** ** [metricName] *)

Lemma metricName_no_namespace (name : string) :
  metricName name EmptyString = underscored name.
Proof. unfold metricName. simpl. apply replace_NS_RE. Qed.

(** C3 (the code departs from the claim): with a non-empty name and a
    non-empty namespace, [metricName] returns the namespace segment alone,
    dots and dashes replaced by underscores; the name is dropped, and the
    result is not [namespace:name]. *)
Theorem metricName_drops_name (name namespace : string) :
  name <> EmptyString -> namespace <> EmptyString ->
  metricName name namespace = underscored namespace
  /\ metricName name namespace <> underscored namespace +:+ ":" +:+ underscored name.
Proof.
  intros Hname Hns.
  assert (E : metricName name namespace = underscored namespace).
  { unfold metricName.
    apply str_empty_false in Hname, Hns. rewrite Hname, Hns. simpl.
    apply replace_NS_RE. }
  split; [exact E |].
  rewrite E. intros C. apply (f_equal String.length) in C.
  rewrite !length_append in C. simpl in C. lia.
Qed.

Lemma metricName_drops_name_witness :
  "requests" <> EmptyString /\ "my.app" <> EmptyString
  /\ metricName "requests" "my.app" = "my_app"
  /\ metricName "requests" "my.app" <> "my_app:requests".
Proof.
  assert (H1 : "requests" <> EmptyString) by discriminate.
  assert (H2 : "my.app" <> EmptyString) by discriminate.
  split; [exact H1 |]. split; [exact H2 |].
  exact (metricName_drops_name "requests" "my.app" H1 H2).
Defined.

(** The composite form is only produced for an empty name. *)
Example metricName_empty_name : metricName EmptyString "my.app" = "my_app:".
Proof. reflexivity. Qed.

(** ** [errorValue] *)

Lemma eq_nocase_true_nonempty (s : string) :
  eq_nocase s "true" = true -> str_empty s = false.
Proof. destruct s; simpl; congruence. Qed.

Lemma true_false_cases (r : string) (P : Prop) :
  (r = "true" /\ P) \/ (r = "false" /\ ~ P) ->
  (r = "true" <-> P) /\ (r = "false" <-> ~ P).
Proof.
  intros [[-> H] | [-> H]]; split; split; intros; try discriminate; tauto.
Qed.

(** C7: [errorValue] returns "true" exactly when the error tag is present
    and is either a string equal to "true" up to case or a truthy value that
    is not a string; in every other case it returns "false". *)
Theorem errorValue_spec (span : Span) :
  (errorValue span = "true" <-> error_tag_true (getTag span "error"))
  /\ (errorValue span = "false" <-> ~ error_tag_true (getTag span "error")).
Proof.
  apply true_false_cases.
  unfold errorValue, error_tag_true.
  destruct (getTag span "error") as [[s|n|b]|] eqn:E; simpl.
  - rewrite toLowerCase_true.
    destruct (eq_nocase s "true") eqn:Ec.
    + rewrite (eq_nocase_true_nonempty s Ec). simpl.
      left. split; [reflexivity |].
      exists (VString s). split; [reflexivity |]. left. eauto.
    + rewrite orb_true_r. right. split; [reflexivity |].
      intros (v & Hv & [(s0 & -> & Hs0) | [Hs _]]).
      * injection Hv as ->. congruence.
      * injection Hv as <-. discriminate.
  - rewrite orb_false_r.
    destruct (n =? 0) eqn:En; simpl.
    + right. split; [reflexivity |].
      intros (v & Hv & [(s0 & -> & Hs0) | [_ Ht]]).
      * discriminate.
      * injection Hv as <-. simpl in Ht. rewrite En in Ht. discriminate.
    + left. split; [reflexivity |].
      exists (VNumber n). split; [reflexivity |]. right. simpl. now rewrite En.
  - rewrite orb_false_r.
    destruct b; simpl.
    + left. split; [reflexivity |].
      exists (VBoolean true). split; [reflexivity |]. right. now simpl.
    + right. split; [reflexivity |].
      intros (v & Hv & [(s0 & -> & Hs0) | [_ Ht]]).
      * discriminate.
      * injection Hv as <-. discriminate.
  - right. split; [reflexivity |].
    intros (v & Hv & _). discriminate.
Qed.

Example errorValue_TRUE :
  errorValue (span_of "op" 1 [("error", VString "TrUe")]) = "true".
Proof. reflexivity. Qed.

Example errorValue_other_string :
  errorValue (span_of "op" 1 [("error", VString "yes")]) = "false".
Proof. reflexivity. Qed.

Example errorValue_number :
  errorValue (span_of "op" 1 [("error", VNumber 1)]) = "true".
Proof. reflexivity. Qed.

(** ** [isHttpServerSpan] *)

Lemma strict_eq_string_spec (o : option value) (s : string) :
  strict_eq_string o s = true <-> o = Some (VString s).
Proof.
  destruct o as [[t|n|b]|]; simpl; split; try discriminate.
  - intros H. apply String.eqb_eq in H. now subst.
  - intros H. injection H as ->. apply String.eqb_refl.
Qed.

(** C6, as amended: [isHttpServerSpan] is true exactly when the span-kind
    tag is the string "server" and at least one of the HTTP-URL, HTTP-METHOD
    and HTTP-STATUS-CODE tags holds a truthy value. *)
Theorem isHttpServerSpan_spec (span : Span) :
  isHttpServerSpan span = true <->
  getTag span SPAN_KIND = Some (VString SPAN_KIND_RPC_SERVER)
  /\ (truthy_opt (getTag span HTTP_URL) = true
      \/ truthy_opt (getTag span HTTP_METHOD) = true
      \/ truthy_opt (getTag span HTTP_STATUS_CODE) = true).
Proof.
  unfold isHttpServerSpan.
  rewrite andb_true_iff, !orb_true_iff, strict_eq_string_spec. tauto.
Qed.

(** C6, as stated, fails: a server span whose only HTTP tag is the status
    code 0 has the tag, yet is not an HTTP-server span. *)
Lemma isHttpServerSpan_present_counterexample :
  let span := span_of "op" 1
                [(SPAN_KIND, VString SPAN_KIND_RPC_SERVER); (HTTP_STATUS_CODE, VNumber 0)] in
  ~ (isHttpServerSpan span = true <->
     getTag span SPAN_KIND = Some (VString SPAN_KIND_RPC_SERVER)
     /\ (getTag span HTTP_URL <> None
         \/ getTag span HTTP_METHOD <> None
         \/ getTag span HTTP_STATUS_CODE <> None)).
Proof.
  intros span [_ H].
  assert (C : isHttpServerSpan span = true).
  { apply H. split; [reflexivity |]. right. right. discriminate. }
  discriminate C.
Qed.

(** ** Association lists and the registry *)

Local Open Scope list_scope.

Section AListFacts.
Context {K V : Type} `{EqDecision K}.
Implicit Types (k : K) (v : V) (l : list (K * V)).

Lemma alookup_aset k k' v l :
  alookup k' (aset k v l) = if decide (k' = k) then Some v else alookup k' l.
Proof.
  induction l as [|[k0 v0] l IH]; simpl.
  - destruct (decide (k' = k)); reflexivity.
  - destruct (decide (k = k0)) as [->|Hne]; simpl.
    + destruct (decide (k' = k0)); reflexivity.
    + destruct (decide (k' = k0)) as [->|Hne'].
      * destruct (decide (k0 = k)); [congruence | reflexivity].
      * exact IH.
Qed.

Lemma alookup_snoc k k' v l :
  alookup k' (l ++ [(k, v)]) =
    match alookup k' l with
    | Some x => Some x
    | None => if decide (k' = k) then Some v else None
    end.
Proof.
  induction l as [|[k0 v0] l IH]; simpl; [reflexivity |].
  destruct (decide (k' = k0)); [reflexivity | exact IH].
Qed.
End AListFacts.

Lemma lookup_ensure (name name' : string) (fresh : Metric) (r : Registry) :
  getSingleMetric (ensure name fresh r) name' =
    match getSingleMetric r name' with
    | Some m => Some m
    | None => if decide (name' = name) then Some fresh else None
    end.
Proof.
  unfold ensure, getSingleMetric.
  destruct (alookup name r) as [m|] eqn:E.
  - destruct (alookup name' r) eqn:E'; [reflexivity |].
    destruct (decide (name' = name)) as [->|]; [congruence | reflexivity].
  - apply alookup_snoc.
Qed.

Lemma lookup_update (name name' : string) (f : Metric -> Metric) (r : Registry) :
  getSingleMetric (Registry_update name f r) name' =
    if decide (name' = name) then f <$> getSingleMetric r name'
    else getSingleMetric r name'.
Proof.
  unfold Registry_update, getSingleMetric.
  destruct (alookup name r) as [m|] eqn:E.
  - rewrite alookup_aset. destruct (decide (name' = name)) as [->|]; [| reflexivity].
    now rewrite E.
  - destruct (decide (name' = name)) as [->|]; [| reflexivity].
    now rewrite E.
Qed.

Lemma lookup_ensure_other (name name' : string) (fresh : Metric) (r : Registry) :
  name' <> name -> getSingleMetric (ensure name fresh r) name' = getSingleMetric r name'.
Proof.
  intros H. rewrite lookup_ensure.
  destruct (getSingleMetric r name'); [reflexivity | now rewrite decide_False].
Qed.

Lemma lookup_update_other (name name' : string) (f : Metric -> Metric) (r : Registry) :
  name' <> name -> getSingleMetric (Registry_update name f r) name' = getSingleMetric r name'.
Proof. intros H. now rewrite lookup_update, decide_False. Qed.

Lemma Registry_counterValue_ext (r r' : Registry) (name : string) (labels : list string) :
  getSingleMetric r name = getSingleMetric r' name ->
  Registry_counterValue r name labels = Registry_counterValue r' name labels.
Proof. unfold Registry_counterValue. now intros ->. Qed.

Lemma Registry_histogramValue_ext (r r' : Registry) (name : string) (labels : list string) :
  getSingleMetric r name = getSingleMetric r' name ->
  Registry_histogramValue r name labels = Registry_histogramValue r' name labels.
Proof. unfold Registry_histogramValue. now intros ->. Qed.

(** ** What a label set holds after a list of observations *)

Lemma hv_of_snoc (B vals : list Q) (v : Q) :
  hv_of B (vals ++ [v]) = observeValue B v (hv_of B vals).
Proof. unfold hv_of. now rewrite fold_left_app. Qed.

Lemma default_entry_of (B vals : list Q) :
  default (createBaseValues B) (entry_of B vals) = hv_of B vals.
Proof. destruct vals; reflexivity. Qed.

Lemma entry_of_snoc (B vals : list Q) (v : Q) :
  entry_of B (vals ++ [v]) = Some (observeValue B v (hv_of B vals)).
Proof.
  unfold entry_of. destruct (vals ++ [v]) eqn:E.
  - destruct vals; discriminate.
  - rewrite <- E. f_equal. apply hv_of_snoc.
Qed.

Lemma entry_of_Some (B vals : list Q) (hv : HistogramValue) :
  entry_of B vals = Some hv -> hv = hv_of B vals.
Proof. destruct vals; simpl; congruence. Qed.

Lemma count_le_snoc (vals : list Q) (v b : Q) :
  count_le (vals ++ [v]) b = count_le vals b + (if Qle_bool v b then 1 else 0).
Proof.
  unfold count_le. rewrite List.filter_app, length_app. simpl.
  destruct (Qle_bool v b); simpl; lia.
Qed.

Lemma zip_with_map_r {A B C : Type} (f : A -> B -> C) (g : A -> B) (l : list A) :
  zip_with f l (map g l) = map (fun x => f x (g x)) l.
Proof. induction l as [|x l IH]; simpl; [reflexivity | now rewrite IH]. Qed.

(** Every declared bucket counts the observations that are at most its
    bound. *)
Lemma hv_of_bucketValues (B vals : list Q) :
  bucketValues (hv_of B vals) = map (count_le vals) B.
Proof.
  induction vals as [|v vals IH] using rev_ind.
  - reflexivity.
  - rewrite hv_of_snoc. simpl. rewrite IH, zip_with_map_r.
    apply map_ext. intros b. rewrite count_le_snoc.
    destruct (Qle_bool v b); lia.
Qed.

Lemma hv_of_count (B vals : list Q) : count (hv_of B vals) = Z.of_nat (length vals).
Proof.
  induction vals as [|v vals IH] using rev_ind.
  - reflexivity.
  - rewrite hv_of_snoc. simpl. rewrite IH, length_app. simpl. lia.
Qed.

Lemma Qsum_snoc (vals : list Q) (v : Q) : (Qsum (vals ++ [v]) == Qsum vals + v)%Q.
Proof.
  induction vals as [|w vals IH]; simpl.
  - ring.
  - rewrite IH. ring.
Qed.

Lemma hv_of_sum (B vals : list Q) : (sum (hv_of B vals) == Qsum vals)%Q.
Proof.
  induction vals as [|v vals IH] using rev_ind.
  - reflexivity.
  - rewrite hv_of_snoc, Qsum_snoc. simpl. now rewrite IH.
Qed.

Lemma count_le_mono (vals : list Q) (b b' : Q) :
  (b <= b')%Q -> count_le vals b <= count_le vals b'.
Proof.
  intros Hb. unfold count_le. apply Nat2Z.inj_le.
  induction vals as [|v vals IH]; simpl; [lia |].
  destruct (Qle_bool v b) eqn:E.
  - assert (E' : Qle_bool v b' = true).
    { apply Qle_bool_iff. apply Qle_bool_iff in E. now apply Qle_trans with b. }
    rewrite E'. simpl. lia.
  - destruct (Qle_bool v b'); simpl; lia.
Qed.

Lemma count_le_length (vals : list Q) (b : Q) : count_le vals b <= Z.of_nat (length vals).
Proof. unfold count_le. apply Nat2Z.inj_le. apply List.filter_length_le. Qed.

(** Over ascending bounds the counts ascend, up to the [+Inf] bucket. *)
Lemma bucketCounts_sorted (B vals : list Q) :
  StronglySorted Qle B ->
  StronglySorted Z.le (bucketCounts (hv_of B vals)).
Proof.
  unfold bucketCounts. rewrite hv_of_bucketValues, hv_of_count.
  induction 1 as [|b B HB IH Hall]; simpl.
  - repeat constructor.
  - constructor; [exact IH |].
    apply List.Forall_app. split.
    + apply List.Forall_map. revert Hall. apply List.Forall_impl.
      intros b'. apply count_le_mono.
    + constructor; [apply count_le_length | constructor].
Qed.

Lemma StronglySorted_lookup_le (l : list Z) :
  StronglySorted Z.le l ->
  forall (i j : nat) (a b : Z),
    (i <= j)%nat -> l !! i = Some a -> l !! j = Some b -> a <= b.
Proof.
  induction 1 as [|x l Hl IH Hall]; intros i j a b Hij Hi Hj.
  - discriminate.
  - destruct i as [|i], j as [|j]; simpl in *.
    + injection Hi as <-. injection Hj as <-. lia.
    + injection Hi as <-.
      rewrite List.Forall_forall in Hall. apply Hall.
      apply list_elem_of_In. now apply list_elem_of_lookup_2 with j.
    + lia.
    + apply (IH i j); [lia | assumption | assumption].
Qed.

Lemma last_bucketCounts (hv : HistogramValue) : List.last (bucketCounts hv) 0 = count hv.
Proof. unfold bucketCounts. apply List.last_last. Qed.

Lemma buckets_ascending : StronglySorted Qle DURATION_HISTOGRAM_BUCKETS.
Proof.
  unfold DURATION_HISTOGRAM_BUCKETS.
  repeat (constructor; [| repeat (constructor; [discriminate |]); constructor]).
  constructor.
Qed.

(** ** The registry and the log of events *)

Lemma valuesOf_snoc (name n : string) (labels l : list string) (v : Q)
    (log : list (string * list string * Q)) :
  valuesOf name labels (log ++ [(n, l, v)]) =
    valuesOf name labels log ++ (if decide (n = name /\ l = labels) then [v] else []).
Proof.
  unfold valuesOf. rewrite omap_app. simpl.
  destruct (decide (n = name /\ l = labels)); reflexivity.
Qed.

Lemma agrees_ensure_counter (r : Registry) (log : list (string * list string * Q))
    (name : string) (c : Counter) :
  name = METRICS_NAME_REQUESTS \/ name = METRICS_NAME_HTTP_STATUS_CODES ->
  registry_agrees r log -> registry_agrees (ensure name (MCounter c) r) log.
Proof.
  intros Hname H n. rewrite lookup_ensure. specialize (H n).
  destruct (getSingleMetric r n) as [[h|c']|]; try exact H.
  destruct (decide (n = name)) as [->|]; [exact Hname | exact H].
Qed.

Lemma agrees_ensure_histogram (r : Registry) (log : list (string * list string * Q))
    (name : string) (h : Histogram) :
  name = METRICS_NAME_OPERATION \/ name = METRICS_NAME_HTTP_REQUEST_LATENCY ->
  upperBounds h = DURATION_HISTOGRAM_BUCKETS -> h_hashMap h = [] ->
  registry_agrees r log -> registry_agrees (ensure name (MHistogram h) r) log.
Proof.
  intros Hname HB Hm H n. rewrite lookup_ensure. specialize (H n).
  destruct (getSingleMetric r n) as [[h'|c']|]; try exact H.
  destruct (decide (n = name)) as [->|]; [| exact H].
  destruct H as [_ H]. repeat split; try assumption.
  intros labels. now rewrite Hm, H.
Qed.

Lemma agrees_inc (r : Registry) (log : list (string * list string * Q))
    (name : string) (labels : list string) :
  registry_agrees r log ->
  registry_agrees (Registry_update name (Metric_inc labels) r) log.
Proof.
  intros H n. rewrite lookup_update. specialize (H n).
  destruct (decide (n = name)) as [->|]; [| exact H].
  destruct (getSingleMetric r name) as [[h|c]|]; exact H.
Qed.

Lemma agrees_observe (r : Registry) (log : list (string * list string * Q))
    (name : string) (labels : list string) (v : Q) :
  getSingleMetric r name <> None ->
  registry_agrees r log ->
  registry_agrees (Registry_update name (Metric_observe labels v) r)
                  (log ++ [(name, labels, v)]).
Proof.
  intros Hreg H n. rewrite lookup_update. specialize (H n).
  destruct (decide (n = name)) as [->|Hne].
  - destruct (getSingleMetric r name) as [[h|c]|]; simpl; [| exact H | congruence].
    destruct H as (Hn & HB & Hmap). repeat split; try assumption.
    intros l. rewrite alookup_aset, valuesOf_snoc.
    destruct (decide (l = labels)) as [->|Hl].
    + rewrite decide_True by auto.
      rewrite entry_of_snoc, HB, Hmap, default_entry_of. reflexivity.
    + rewrite decide_False by (intros [_ E]; congruence).
      rewrite app_nil_r. apply Hmap.
  - assert (E : forall l, valuesOf n l (log ++ [(name, labels, v)]) = valuesOf n l log).
    { intros l. rewrite valuesOf_snoc, decide_False by (intros [E _]; congruence).
      apply app_nil_r. }
    destruct (getSingleMetric r n) as [[h|c]|]; [| exact H |].
    + destruct H as (Hn & HB & Hmap). repeat split; try assumption.
      intros l. rewrite E. apply Hmap.
    + destruct H as (Hn & Hv). split; [exact Hn |]. intros l. rewrite E. apply Hv.
Qed.

Lemma agrees_new (rules : list (string * RegExp)) :
  registry_agrees (_registry (new_PrometheusReporter rules)) [].
Proof.
  intros n.
  change (_registry (new_PrometheusReporter rules))
    with (ensure METRICS_NAME_OPERATION fresh_operations []).
  rewrite lookup_ensure. simpl.
  destruct (decide (n = METRICS_NAME_OPERATION)) as [->|Hne].
  - repeat split; auto.
  - split; [exact Hne | reflexivity].
Qed.

(** In a registry that agrees with a log the four names hold what the
    reporter registers under them. *)
Lemma agrees_typed (r : Registry) (log : list (string * list string * Q)) :
  registry_agrees r log ->
  (exists h, getSingleMetric r METRICS_NAME_OPERATION = Some (MHistogram h)
             /\ upperBounds h = DURATION_HISTOGRAM_BUCKETS)
  /\ (getSingleMetric r METRICS_NAME_HTTP_REQUEST_LATENCY = None
      \/ exists h, getSingleMetric r METRICS_NAME_HTTP_REQUEST_LATENCY = Some (MHistogram h)
                   /\ upperBounds h = DURATION_HISTOGRAM_BUCKETS)
  /\ (getSingleMetric r METRICS_NAME_REQUESTS = None
      \/ exists c, getSingleMetric r METRICS_NAME_REQUESTS = Some (MCounter c))
  /\ (getSingleMetric r METRICS_NAME_HTTP_STATUS_CODES = None
      \/ exists c, getSingleMetric r METRICS_NAME_HTTP_STATUS_CODES = Some (MCounter c)).
Proof.
  intros H. repeat split.
  - specialize (H METRICS_NAME_OPERATION).
    destruct (getSingleMetric r METRICS_NAME_OPERATION) as [[h|c]|].
    + exists h. tauto.
    + destruct H; discriminate.
    + now destruct H.
  - specialize (H METRICS_NAME_HTTP_REQUEST_LATENCY).
    destruct (getSingleMetric r METRICS_NAME_HTTP_REQUEST_LATENCY) as [[h|c]|].
    + right. exists h. tauto.
    + destruct H; discriminate.
    + now left.
  - specialize (H METRICS_NAME_REQUESTS).
    destruct (getSingleMetric r METRICS_NAME_REQUESTS) as [[h|c]|].
    + destruct H as [[?|?] _]; discriminate.
    + right. eauto.
    + now left.
  - specialize (H METRICS_NAME_HTTP_STATUS_CODES).
    destruct (getSingleMetric r METRICS_NAME_HTTP_STATUS_CODES) as [[h|c]|].
    + destruct H as [[?|?] _]; discriminate.
    + right. eauto.
    + now left.
Qed.

(** ** The ignore filter *)

Section Some.
Context {A : Type} (callback : A -> completion bool).

Lemma some_all_false (l : list A) :
  (forall x, In x l -> callback x = Return false) -> some callback l = Return false.
Proof.
  induction l as [|x l IH]; intros H; simpl; [reflexivity |].
  rewrite (H x) by now left. apply IH. intros y Hy. apply H. now right.
Qed.

Lemma some_returns (l : list A) :
  (forall x, In x l -> exists b, callback x = Return b) ->
  exists b, some callback l = Return b.
Proof.
  induction l as [|x l IH]; intros H; simpl; [eauto |].
  destruct (H x) as [[] ->]; [now left | eauto |].
  apply IH. intros y Hy. apply H. now right.
Qed.

(** The first truthy callback decides, whatever follows it. *)
Lemma some_first_true (pre post : list A) (x : A) :
  (forall y, In y pre -> exists b, callback y = Return b) ->
  callback x = Return true ->
  some callback (pre ++ x :: post) = Return true.
Proof.
  induction pre as [|y pre IH]; intros Hpre Hx; simpl.
  - now rewrite Hx.
  - destruct (Hpre y) as [[] ->]; [now left | reflexivity |].
    apply IH; [| exact Hx]. intros z Hz. apply Hpre. now right.
Qed.

(** An exception is reached when nothing before it is truthy. *)
Lemma some_first_throw (pre post : list A) (x : A) (e : Exception) :
  (forall y, In y pre -> callback y = Return false \/ callback y = Throw e) ->
  callback x = Throw e ->
  some callback (pre ++ x :: post) = Throw e.
Proof.
  induction pre as [|y pre IH]; intros Hpre Hx; simpl.
  - now rewrite Hx.
  - destruct (Hpre y) as [-> | ->]; [now left | | reflexivity].
    apply IH; [| exact Hx]. intros z Hz. apply Hpre. now right.
Qed.
End Some.

Lemma ignoreCallback_cases (span : Span) (rule : string * RegExp) :
  ignoreCallback span rule =
    if no_match_method (getTag span rule.1)
    then Throw (TypeError_not_a_function "match")
    else Return (rule_matches span rule).
Proof.
  destruct rule as [tagKey regexp]. unfold ignoreCallback, no_match_method, rule_matches.
  simpl. destruct (getTag span tagKey) as [[s|n|b]|]; simpl; try reflexivity.
  - rewrite andb_false_r. now destruct (str_empty s).
  - rewrite andb_true_r. now destruct (n =? 0).
  - rewrite andb_true_r. now destruct b.
Qed.

Lemma isIgnored_match (span : Span) (pre post : list (string * RegExp)) (rule : string * RegExp) :
  (forall r, In r pre -> no_match_method (getTag span r.1) = false) ->
  rule_matches span rule = true ->
  isIgnored (pre ++ rule :: post) span = Return true.
Proof.
  intros Hpre Hrule. apply some_first_true.
  - intros r Hr. rewrite ignoreCallback_cases, (Hpre r Hr). eauto.
  - rewrite ignoreCallback_cases.
    destruct (no_match_method (getTag span rule.1)) eqn:E; [| now rewrite Hrule].
    unfold rule_matches in Hrule. unfold no_match_method in E.
    destruct (getTag span rule.1) as [[s|n|b]|]; simpl in *; try discriminate.
    now rewrite andb_false_r in E.
Qed.

Lemma isIgnored_type_error (span : Span) (pre post : list (string * RegExp))
    (rule : string * RegExp) :
  (forall r, In r pre -> rule_matches span r = false) ->
  no_match_method (getTag span rule.1) = true ->
  isIgnored (pre ++ rule :: post) span = Throw (TypeError_not_a_function "match").
Proof.
  intros Hpre Hrule. apply some_first_throw.
  - intros r Hr. rewrite ignoreCallback_cases, (Hpre r Hr).
    destruct (no_match_method (getTag span r.1)); auto.
  - now rewrite ignoreCallback_cases, Hrule.
Qed.

Lemma isIgnored_total (span : Span) (rules : list (string * RegExp)) :
  (forall r, In r rules -> no_match_method (getTag span r.1) = false) ->
  exists b, isIgnored rules span = Return b.
Proof.
  intros H. apply some_returns. intros r Hr.
  rewrite ignoreCallback_cases, (H r Hr). eauto.
Qed.

Section Reporting.

Variable URL_new : value -> option URL.
Variable Number_toString : Q -> string.

(** ** [endpointName] *)

Lemma endpointName_other (span : Span) :
  truthy_opt (getTag span HTTP_URL) = false ->
  endpointName URL_new span = Return "other".
Proof.
  unfold endpointName. destruct (getTag span HTTP_URL) as [v|]; simpl; [| reflexivity].
  now intros ->.
Qed.

Lemma endpointName_invalid (span : Span) (reqUrl : value) :
  getTag span HTTP_URL = Some reqUrl -> truthy reqUrl = true ->
  URL_new reqUrl = None ->
  endpointName URL_new span = Throw ERR_INVALID_URL.
Proof. unfold endpointName. intros -> Ht ->. now rewrite Ht. Qed.

(** C5, as amended: without an HTTP-URL tag, or with a falsy one,
    [endpointName] returns "other"; with a truthy one that parses, to a URL
    whose protocol is the scheme followed by a colon, and a string method
    tag, it returns "SCHEME METHOD path" (scheme and method in upper case,
    an empty path read as "/") with every character outside
    [A-Za-z0-9\-_/.] replaced by a dash; with a truthy one that does not
    parse, the parse error propagates; for [http://127.0.0.1/foo] and
    [GET] the result is "HTTP-GET-/foo". *)
Theorem endpointName_spec (span : Span) :
  (truthy_opt (getTag span HTTP_URL) = false ->
   endpointName URL_new span = Return "other")
  /\ (forall reqUrl url scheme m,
        getTag span HTTP_URL = Some reqUrl -> truthy reqUrl = true ->
        URL_new reqUrl = Some url -> protocol url = scheme +:+ ":" ->
        getTag span HTTP_METHOD = Some (VString m) ->
        endpointName URL_new span =
          Return (normalizeIdentifier
                    (toUpperCase scheme +:+ " " +:+ toUpperCase m +:+ " "
                     +:+ (if decide (pathname url = EmptyString) then "/" else pathname url))))
  /\ (forall reqUrl,
        getTag span HTTP_URL = Some reqUrl -> truthy reqUrl = true ->
        URL_new reqUrl = None ->
        endpointName URL_new span = Throw ERR_INVALID_URL)
  /\ (getTag span HTTP_URL = Some (VString "http://127.0.0.1/foo") ->
      URL_new (VString "http://127.0.0.1/foo")
        = Some {| protocol := "http:"; pathname := "/foo" |} ->
      getTag span HTTP_METHOD = Some (VString "GET") ->
      endpointName URL_new span = Return "HTTP-GET-/foo").
Proof.
  split; [apply endpointName_other |].
  split; [| split; [apply endpointName_invalid |]].
  - intros reqUrl url scheme m Hu Ht Hp Hs Hm.
    unfold endpointName. rewrite Hu. simpl. rewrite Ht. simpl.
    rewrite Hp, Hm, Hs, slice_0_m1_app_char, replace_NORM_RE.
    do 2 f_equal. do 4 f_equal.
    destruct (pathname url); reflexivity.
  - intros Hu Hp Hm. unfold endpointName. rewrite Hu. simpl. rewrite Hp, Hm.
    reflexivity.
Qed.

(** A truthy HTTP-URL tag that parses and no HTTP-METHOD tag make
    [endpointName] throw. *)
Lemma endpointName_no_method (span : Span) (reqUrl : value) (url : URL) :
  getTag span HTTP_URL = Some reqUrl -> truthy reqUrl = true ->
  URL_new reqUrl = Some url ->
  getTag span HTTP_METHOD = None ->
  endpointName URL_new span = Throw (TypeError_undefined "toUpperCase").
Proof.
  intros Hu Ht Hp Hm. unfold endpointName. rewrite Hu. simpl. rewrite Ht. simpl.
  now rewrite Hp, Hm.
Qed.

(** ** [reportFinish]: the calls that record nothing *)

Lemma reportFinish_ignored (this : PrometheusReporter) (span : Span) :
  isIgnored (ignoreTags this) span = Return true ->
  reportFinish URL_new this span = (Return tt, this).
Proof. unfold reportFinish. now intros ->. Qed.

Lemma reportFinish_filter_throws (this : PrometheusReporter) (span : Span) (e : Exception) :
  isIgnored (ignoreTags this) span = Throw e ->
  reportFinish URL_new this span = (Throw e, this).
Proof. unfold reportFinish. now intros ->. Qed.

Lemma reportFinish_endpoint_throws (this : PrometheusReporter) (span : Span) (e : Exception) :
  isIgnored (ignoreTags this) span = Return false ->
  isHttpServerSpan span = true ->
  endpointName URL_new span = Throw e ->
  reportFinish URL_new this span = (Throw e, this).
Proof.
  unfold reportFinish, _reportHttpRequestFinish. now intros -> -> ->.
Qed.

(** C2, as amended: when some ignore rule finds a non-empty string under
    its key and the pattern matches it, and no rule ahead of it in the
    order of the entries finds a truthy value that is not a string,
    [reportFinish] returns and leaves the reporter as it was; the rendered
    metrics are the same text before and after. *)
Theorem reportFinish_ignored_frame (this : PrometheusReporter) (span : Span)
    (pre post : list (string * RegExp)) (rule : string * RegExp) :
  ignoreTags this = (pre ++ rule :: post)%list ->
  rule_matches span rule = true ->
  (forall r, In r pre -> no_match_method (getTag span r.1) = false) ->
  reportFinish URL_new this span = (Return tt, this)
  /\ metrics Number_toString (snd (reportFinish URL_new this span))
     = metrics Number_toString this.
Proof.
  intros Hrules Hrule Hpre.
  assert (E : reportFinish URL_new this span = (Return tt, this)).
  { apply reportFinish_ignored. rewrite Hrules. now apply isIgnored_match. }
  split; [exact E | now rewrite E].
Qed.

(** C9, as amended: when some ignore rule finds a truthy value that is not
    a string under its key and no rule ahead of it in the order of the
    entries matches, [reportFinish] throws the type error of the missing
    [match] method and leaves the reporter as it was; and when every rule
    finds a string, a falsy value or nothing, the filter returns. *)
Theorem reportFinish_filter_type_error (this : PrometheusReporter) (span : Span) :
  (forall pre post rule,
      ignoreTags this = (pre ++ rule :: post)%list ->
      no_match_method (getTag span rule.1) = true ->
      (forall r, In r pre -> rule_matches span r = false) ->
      reportFinish URL_new this span = (Throw (TypeError_not_a_function "match"), this))
  /\ ((forall r, In r (ignoreTags this) -> no_match_method (getTag span r.1) = false) ->
      exists b, isIgnored (ignoreTags this) span = Return b).
Proof.
  split.
  - intros pre post rule Hrules Hrule Hpre.
    apply reportFinish_filter_throws. rewrite Hrules.
    now apply isIgnored_type_error.
  - apply isIgnored_total.
Qed.

(** C8, as amended: for an HTTP-server span whose HTTP-URL tag is truthy
    and does not parse, [reportFinish] leaves the reporter exactly as it
    was, whatever the ignore rules do; and when the ignore filter returns
    without a match, the parse error is what the call throws. *)
Theorem reportFinish_malformed_url (this : PrometheusReporter) (span : Span)
    (reqUrl : value) :
  isHttpServerSpan span = true ->
  getTag span HTTP_URL = Some reqUrl -> truthy reqUrl = true ->
  URL_new reqUrl = None ->
  snd (reportFinish URL_new this span) = this
  /\ (isIgnored (ignoreTags this) span = Return false ->
      reportFinish URL_new this span = (Throw ERR_INVALID_URL, this)).
Proof.
  intros Hhttp Hu Ht Hp.
  pose proof (endpointName_invalid span reqUrl Hu Ht Hp) as He.
  split.
  - unfold reportFinish, _reportHttpRequestFinish.
    destruct (isIgnored (ignoreTags this) span) as [[] | e]; try reflexivity.
    now rewrite Hhttp, He.
  - intros Hi. now apply reportFinish_endpoint_throws.
Qed.

(** C10, as amended: a truthy HTTP-URL tag that parses and no HTTP-METHOD
    tag make [endpointName] throw the type error of reading [toUpperCase]
    off [undefined]; for an HTTP-server span with such tags that the
    ignore filter lets through, [reportFinish] throws that error and
    leaves the reporter as it was. *)
Theorem reportFinish_no_method (this : PrometheusReporter) (span : Span)
    (reqUrl : value) (url : URL) :
  getTag span HTTP_URL = Some reqUrl -> truthy reqUrl = true ->
  URL_new reqUrl = Some url ->
  getTag span HTTP_METHOD = None ->
  endpointName URL_new span = Throw (TypeError_undefined "toUpperCase")
  /\ (isHttpServerSpan span = true ->
      isIgnored (ignoreTags this) span = Return false ->
      reportFinish URL_new this span = (Throw (TypeError_undefined "toUpperCase"), this)).
Proof.
  intros Hu Ht Hp Hm.
  pose proof (endpointName_no_method span reqUrl url Hu Ht Hp Hm) as He.
  split; [exact He |].
  intros Hhttp Hi. now apply reportFinish_endpoint_throws.
Qed.


(** ** The registry under the recording methods *)

Lemma set_registry_id (this : PrometheusReporter) : set_registry this (_registry this) = this.
Proof. now destruct this. Qed.

Lemma singleton_operations (this : PrometheusReporter) :
  _metricsOperationDurationSeconds this
  = (set_registry this (ensure METRICS_NAME_OPERATION fresh_operations (_registry this)),
     METRICS_NAME_OPERATION).
Proof.
  unfold _metricsOperationDurationSeconds, ensure, registerMetric.
  destruct (getSingleMetric _ _); [now rewrite set_registry_id | reflexivity].
Qed.

Lemma singleton_request_latency (this : PrometheusReporter) :
  _metricsHttpRequestLatency this
  = (set_registry this
       (ensure METRICS_NAME_HTTP_REQUEST_LATENCY fresh_request_latency (_registry this)),
     METRICS_NAME_HTTP_REQUEST_LATENCY).
Proof.
  unfold _metricsHttpRequestLatency, ensure, registerMetric.
  destruct (getSingleMetric _ _); [now rewrite set_registry_id | reflexivity].
Qed.

Lemma singleton_requests (this : PrometheusReporter) :
  _metricsHttpRequestCount this
  = (set_registry this (ensure METRICS_NAME_REQUESTS fresh_requests (_registry this)),
     METRICS_NAME_REQUESTS).
Proof.
  unfold _metricsHttpRequestCount, ensure, registerMetric.
  destruct (getSingleMetric _ _); [now rewrite set_registry_id | reflexivity].
Qed.

Lemma singleton_http_requests (this : PrometheusReporter) :
  _metricsHttpRequestStatusCodes this
  = (set_registry this
       (ensure METRICS_NAME_HTTP_STATUS_CODES fresh_http_requests (_registry this)),
     METRICS_NAME_HTTP_STATUS_CODES).
Proof.
  unfold _metricsHttpRequestStatusCodes, ensure, registerMetric.
  destruct (getSingleMetric _ _); [now rewrite set_registry_id | reflexivity].
Qed.

Lemma _reportOperationFinish_registry (this : PrometheusReporter) (span : Span) :
  _reportOperationFinish this span
  = set_registry this (operation_registry (_registry this) span).
Proof.
  unfold _reportOperationFinish. rewrite singleton_operations. reflexivity.
Qed.

Lemma _recordHttpRequestMetrics_registry (this : PrometheusReporter)
    (endpoint err : string) (d : Q) :
  _recordHttpRequestMetrics this endpoint err d
  = set_registry this (request_registry (_registry this) endpoint err d).
Proof.
  unfold _recordHttpRequestMetrics.
  rewrite singleton_requests, singleton_request_latency. reflexivity.
Qed.

Lemma _recordHttpResponseMetrics_registry (this : PrometheusReporter)
    (endpoint : string) (statusCode : option Z) :
  _recordHttpResponseMetrics this endpoint statusCode
  = set_registry this (response_registry (_registry this) endpoint statusCode).
Proof.
  unfold _recordHttpResponseMetrics, response_registry.
  destruct (parseInt_div100 statusCode) as [m|]; [| now rewrite set_registry_id].
  destruct ((2 <=? m) && (m <=? 5)); [| now rewrite set_registry_id].
  rewrite singleton_http_requests. reflexivity.
Qed.

Lemma reportFinish_http (this : PrometheusReporter) (span : Span) (endpoint : string) :
  isIgnored (ignoreTags this) span = Return false ->
  isHttpServerSpan span = true ->
  endpointName URL_new span = Return endpoint ->
  reportFinish URL_new this span
  = (Return tt,
     set_registry this
       (response_registry
          (request_registry (_registry this) endpoint (errorValue span)
             (duration span / 1000)%Q)
          endpoint (parseInt (getTag span HTTP_STATUS_CODE)))).
Proof.
  intros Hi Hh He. unfold reportFinish, _reportHttpRequestFinish.
  rewrite Hi, Hh, He.
  rewrite _recordHttpRequestMetrics_registry, _recordHttpResponseMetrics_registry.
  reflexivity.
Qed.

Lemma reportFinish_operation (this : PrometheusReporter) (span : Span) :
  isIgnored (ignoreTags this) span = Return false ->
  isHttpServerSpan span = false ->
  reportFinish URL_new this span
  = (Return tt, set_registry this (operation_registry (_registry this) span)).
Proof.
  intros Hi Hh. unfold reportFinish. rewrite Hi, Hh.
  now rewrite _reportOperationFinish_registry.
Qed.

Lemma reportFinish_ignoreTags (this : PrometheusReporter) (span : Span) :
  ignoreTags (snd (reportFinish URL_new this span)) = ignoreTags this.
Proof.
  unfold reportFinish, _reportHttpRequestFinish.
  destruct (isIgnored _ _) as [[] | e]; try reflexivity.
  destruct (isHttpServerSpan span).
  - destruct (endpointName URL_new span); [| reflexivity].
    rewrite _recordHttpRequestMetrics_registry, _recordHttpResponseMetrics_registry.
    reflexivity.
  - now rewrite _reportOperationFinish_registry.
Qed.

(** *** Every call keeps the registry in step with the log *)

Lemma agrees_operation (r : Registry) (log : list (string * list string * Q)) (span : Span) :
  registry_agrees r log ->
  registry_agrees (operation_registry r span)
    (log ++ [(METRICS_NAME_OPERATION, [operationName span], (duration span / 1000)%Q)]).
Proof.
  intros H. unfold operation_registry. apply agrees_observe.
  - rewrite lookup_ensure. destruct (getSingleMetric r _); [discriminate |].
    rewrite decide_True by reflexivity. discriminate.
  - apply agrees_ensure_histogram; auto.
Qed.

Lemma agrees_request (r : Registry) (log : list (string * list string * Q))
    (endpoint err : string) (d : Q) :
  registry_agrees r log ->
  registry_agrees (request_registry r endpoint err d)
    (log ++ [(METRICS_NAME_HTTP_REQUEST_LATENCY, [endpoint; err], d)]).
Proof.
  intros H. unfold request_registry. apply agrees_observe.
  - rewrite lookup_ensure. destruct (getSingleMetric _ _); [discriminate |].
    rewrite decide_True by reflexivity. discriminate.
  - apply agrees_ensure_histogram; auto.
    apply agrees_inc. apply agrees_ensure_counter; auto.
Qed.

Lemma agrees_response (r : Registry) (log : list (string * list string * Q))
    (endpoint : string) (statusCode : option Z) :
  registry_agrees r log ->
  registry_agrees (response_registry r endpoint statusCode) log.
Proof.
  intros H. unfold response_registry.
  destruct (parseInt_div100 statusCode) as [m|]; [| exact H].
  destruct ((2 <=? m) && (m <=? 5)); [| exact H].
  apply agrees_inc. apply agrees_ensure_counter; auto.
Qed.

Lemma reportFinish_agrees (this : PrometheusReporter) (span : Span)
    (log : list (string * list string * Q)) :
  registry_agrees (_registry this) log ->
  registry_agrees (_registry (snd (reportFinish URL_new this span)))
    (log ++ option_list (observation URL_new (ignoreTags this) span)).
Proof.
  intros H. unfold observation.
  destruct (isIgnored (ignoreTags this) span) as [[] | e] eqn:Hi.
  - rewrite reportFinish_ignored by exact Hi. now rewrite app_nil_r.
  - destruct (isHttpServerSpan span) eqn:Hh.
    + destruct (endpointName URL_new span) as [endpoint | e] eqn:He.
      * rewrite (reportFinish_http this span endpoint Hi Hh He). simpl.
        apply agrees_response. now apply agrees_request.
      * rewrite (reportFinish_endpoint_throws this span e Hi Hh He).
        now rewrite app_nil_r.
    + rewrite (reportFinish_operation this span Hi Hh). simpl.
      now apply agrees_operation.
  - rewrite (reportFinish_filter_throws this span e Hi). now rewrite app_nil_r.
Qed.

Lemma reportAll_ignoreTags (this : PrometheusReporter) (spans : list Span) :
  ignoreTags (reportAll URL_new this spans) = ignoreTags this.
Proof.
  revert this. induction spans as [|span spans IH]; intros this; [reflexivity |].
  change (reportAll URL_new this (span :: spans))
    with (reportAll URL_new (snd (reportFinish URL_new this span)) spans).
  rewrite IH. apply reportFinish_ignoreTags.
Qed.

Lemma events_cons (rules : list (string * RegExp)) (span : Span) (spans : list Span) :
  events URL_new rules (span :: spans)
  = option_list (observation URL_new rules span) ++ events URL_new rules spans.
Proof. unfold events. simpl. now destruct (observation URL_new rules span). Qed.

Lemma reportAll_agrees (this : PrometheusReporter) (spans : list Span)
    (log : list (string * list string * Q)) :
  registry_agrees (_registry this) log ->
  registry_agrees (_registry (reportAll URL_new this spans))
    (log ++ events URL_new (ignoreTags this) spans).
Proof.
  revert this log. induction spans as [|span spans IH]; intros this log H.
  - simpl. now rewrite app_nil_r.
  - rewrite events_cons, app_assoc.
    rewrite <- (reportFinish_ignoreTags this span) at 2.
    change (reportAll URL_new this (span :: spans))
      with (reportAll URL_new (snd (reportFinish URL_new this span)) spans).
    apply IH. now apply reportFinish_agrees.
Qed.

(** Every state the reporter reaches agrees with the events of the spans
    reported so far. *)
Lemma reachable_agrees (rules : list (string * RegExp)) (spans : list Span) :
  registry_agrees
    (_registry (reportAll URL_new (new_PrometheusReporter rules) spans))
    (events URL_new rules spans).
Proof.
  change (events URL_new rules spans)
    with ([] ++ events URL_new (ignoreTags (new_PrometheusReporter rules)) spans).
  apply reportAll_agrees, agrees_new.
Qed.

(** C1: after any sequence of [reportFinish] calls on a new reporter, every
    histogram of the registry is [operations] or [request_latency], and
    every label set it holds has bucket counts that do not decrease along
    the bucket index (the [+Inf] bucket last), each declared bucket
    counting the observed values at most its bound, a [+Inf] count equal
    to the count, which is the number of values observed under that label
    set, and a sum equal to the sum of those values (for [operations], the
    durations divided by 1000). *)
Theorem histogram_invariants (rules : list (string * RegExp)) (spans : list Span)
    (name : string) (h : Histogram) (labels : list string) (hv : HistogramValue) :
  let this := reportAll URL_new (new_PrometheusReporter rules) spans in
  let obs := observed URL_new rules spans name labels in
  getSingleMetric (_registry this) name = Some (MHistogram h) ->
  alookup labels (h_hashMap h) = Some hv ->
  (name = METRICS_NAME_OPERATION \/ name = METRICS_NAME_HTTP_REQUEST_LATENCY)
  /\ (forall (i j : nat) (a b : Z),
        (i <= j)%nat -> bucketCounts hv !! i = Some a -> bucketCounts hv !! j = Some b ->
        a <= b)
  /\ bucketValues hv = map (count_le obs) (upperBounds h)
  /\ List.last (bucketCounts hv) 0 = count hv
  /\ count hv = Z.of_nat (length obs)
  /\ (sum hv == Qsum obs)%Q.
Proof.
  intros this obs Hh Hhv.
  pose proof (reachable_agrees rules spans name) as H.
  fold this in H. rewrite Hh in H. destruct H as (Hname & HB & Hmap).
  rewrite Hmap in Hhv. apply entry_of_Some in Hhv. fold obs in Hhv. subst hv.
  split; [exact Hname |].
  split; [apply StronglySorted_lookup_le, bucketCounts_sorted, buckets_ascending |].
  split; [rewrite HB; apply hv_of_bucketValues |].
  split; [apply last_bucketCounts |].
  split; [apply hv_of_count | apply hv_of_sum].
Qed.

(** *** HTTP-server spans *)

Lemma lookup_request_registry_other (r : Registry) (endpoint err : string) (d : Q)
    (name : string) :
  name <> METRICS_NAME_REQUESTS -> name <> METRICS_NAME_HTTP_REQUEST_LATENCY ->
  getSingleMetric (request_registry r endpoint err d) name = getSingleMetric r name.
Proof.
  intros H1 H2. unfold request_registry.
  now rewrite lookup_update_other, lookup_ensure_other, lookup_update_other,
    lookup_ensure_other.
Qed.

Lemma lookup_response_registry_other (r : Registry) (endpoint : string)
    (statusCode : option Z) (name : string) :
  name <> METRICS_NAME_HTTP_STATUS_CODES ->
  getSingleMetric (response_registry r endpoint statusCode) name = getSingleMetric r name.
Proof.
  intros H1. unfold response_registry.
  destruct (parseInt_div100 statusCode) as [m|]; [| reflexivity].
  destruct ((2 <=? m) && (m <=? 5)); [| reflexivity].
  now rewrite lookup_update_other, lookup_ensure_other.
Qed.

(** Incrementing a counter through its singleton adds one under the label
    set and nothing elsewhere. *)
Lemma counter_inc_value (r : Registry) (name : string) (fresh : Metric)
    (labels labels' : list string) :
  (exists c0, fresh = MCounter c0 /\ c_hashMap c0 = []) ->
  (getSingleMetric r name = None \/ exists c, getSingleMetric r name = Some (MCounter c)) ->
  Registry_counterValue
    (Registry_update name (Metric_inc labels) (ensure name fresh r)) name labels'
  = Registry_counterValue r name labels' + (if decide (labels' = labels) then 1 else 0).
Proof.
  intros (c0 & -> & Hc0) Hr. unfold Registry_counterValue.
  rewrite lookup_update, decide_True by reflexivity.
  rewrite lookup_ensure, decide_True by reflexivity.
  destruct Hr as [-> | [c ->]]; simpl; rewrite alookup_aset.
  - rewrite Hc0. simpl. destruct (decide (labels' = labels)); reflexivity.
  - destruct (decide (labels' = labels)) as [->|]; simpl; lia.
Qed.

Lemma histogram_observe_value (r : Registry) (name : string) (fresh : Metric)
    (labels : list string) (v : Q) :
  (exists h0, fresh = MHistogram h0 /\ h_hashMap h0 = []
              /\ upperBounds h0 = DURATION_HISTOGRAM_BUCKETS) ->
  (getSingleMetric r name = None
   \/ exists h, getSingleMetric r name = Some (MHistogram h)
                /\ upperBounds h = DURATION_HISTOGRAM_BUCKETS) ->
  Registry_histogramValue
    (Registry_update name (Metric_observe labels v) (ensure name fresh r))
    name labels
  = observeValue DURATION_HISTOGRAM_BUCKETS v (Registry_histogramValue r name labels).
Proof.
  intros (h0 & -> & Hm & HB) Hr. unfold Registry_histogramValue.
  rewrite lookup_update, decide_True by reflexivity.
  rewrite lookup_ensure, decide_True by reflexivity.
  destruct Hr as [-> | (h & -> & HB')]; simpl; rewrite alookup_aset.
  - rewrite decide_True by reflexivity. simpl. now rewrite Hm, HB.
  - rewrite decide_True by reflexivity. simpl. now rewrite HB'.
Qed.

Lemma status_in_range (n : Z) :
  (2 <=? Z.quot n 100) && (Z.quot n 100 <=? 5) = true <-> 200 <= n <= 599.
Proof.
  rewrite andb_true_iff, !Z.leb_le.
  Z.to_euclidean_division_equations. lia.
Qed.

(** C4, as amended: for an HTTP-server span that the ignore filter lets
    through and whose endpoint name is computed, a call on a reachable
    reporter returns, adds one to the [requests] counter and one
    observation to the [request_latency] histogram under (endpoint,
    error); if the status-code tag parses to an integer [n] with
    200 <= n <= 599, it adds one to the [http_requests] counter under
    (endpoint, "<n/100>xx") and leaves the other label sets alone; if the
    tag does not parse, or parses to an integer below 200 or to one above
    599 and below 10^21, it leaves [http_requests] alone. *)
Theorem reportFinish_http_status (rules : list (string * RegExp)) (history : list Span)
    (span : Span) (endpoint : string) :
  let this := reportAll URL_new (new_PrometheusReporter rules) history in
  let result := reportFinish URL_new this span in
  let err := errorValue span in
  isIgnored rules span = Return false ->
  isHttpServerSpan span = true ->
  endpointName URL_new span = Return endpoint ->
  fst result = Return tt
  /\ counterValue (snd result) METRICS_NAME_REQUESTS [endpoint; err]
     = counterValue this METRICS_NAME_REQUESTS [endpoint; err] + 1
  /\ histogramValue (snd result) METRICS_NAME_HTTP_REQUEST_LATENCY [endpoint; err]
     = observeValue DURATION_HISTOGRAM_BUCKETS (duration span / 1000)%Q
         (histogramValue this METRICS_NAME_HTTP_REQUEST_LATENCY [endpoint; err])
  /\ (forall n, parseInt (getTag span HTTP_STATUS_CODE) = Some n -> 200 <= n <= 599 ->
        2 <= n / 100 <= 5
        /\ forall labels,
             counterValue (snd result) METRICS_NAME_HTTP_STATUS_CODES labels
             = counterValue this METRICS_NAME_HTTP_STATUS_CODES labels
               + (if decide (labels = [endpoint; Z_toString (n / 100) +:+ "xx"])
                  then 1 else 0))
  /\ ((forall n, parseInt (getTag span HTTP_STATUS_CODE) = Some n ->
                 n < 200 \/ 599 < n < 10 ^ 21) ->
      forall labels,
        counterValue (snd result) METRICS_NAME_HTTP_STATUS_CODES labels
        = counterValue this METRICS_NAME_HTTP_STATUS_CODES labels).
Proof.
  intros this result err Hi Hh He.
  pose proof (reachable_agrees rules history) as Hag. fold this in Hag.
  destruct (agrees_typed _ _ Hag) as (_ & Hlat & Hreq & Hst).
  assert (Hrules : ignoreTags this = rules) by apply reportAll_ignoreTags.
  rewrite <- Hrules in Hi.
  unfold result. rewrite (reportFinish_http this span endpoint Hi Hh He). simpl.
  unfold counterValue, histogramValue. simpl. fold err.
  set (r := _registry this) in *.
  set (d := (duration span / 1000)%Q).
  set (status := parseInt (getTag span HTTP_STATUS_CODE)).
  assert (Hr2 : getSingleMetric (request_registry r endpoint err d)
                  METRICS_NAME_HTTP_STATUS_CODES
                = getSingleMetric r METRICS_NAME_HTTP_STATUS_CODES).
  { apply lookup_request_registry_other; discriminate. }
  split; [reflexivity |].
  split; [| split; [| split]].
  - rewrite (Registry_counterValue_ext _
               (Registry_update METRICS_NAME_REQUESTS (Metric_inc [endpoint; err])
                  (ensure METRICS_NAME_REQUESTS fresh_requests r))).
    + rewrite counter_inc_value; [| unfold fresh_requests; eauto | exact Hreq].
      now rewrite decide_True.
    + rewrite lookup_response_registry_other by discriminate.
      unfold request_registry.
      now rewrite lookup_update_other, lookup_ensure_other by discriminate.
  - rewrite (Registry_histogramValue_ext _ (request_registry r endpoint err d))
      by (apply lookup_response_registry_other; discriminate).
    unfold request_registry.
    set (r1 := Registry_update METRICS_NAME_REQUESTS _ _).
    assert (Hr1 : getSingleMetric r1 METRICS_NAME_HTTP_REQUEST_LATENCY
                  = getSingleMetric r METRICS_NAME_HTTP_REQUEST_LATENCY).
    { unfold r1. now rewrite lookup_update_other, lookup_ensure_other by discriminate. }
    rewrite histogram_observe_value;
      [| unfold fresh_request_latency; eauto | rewrite Hr1; exact Hlat].
    f_equal. now apply Registry_histogramValue_ext.
  - intros n Hn Hrange.
    assert (Hq : Z.quot n 100 = n / 100) by (apply Z.quot_div_nonneg; lia).
    split.
    { apply status_in_range in Hrange. rewrite Hq in Hrange.
      apply andb_true_iff in Hrange. rewrite !Z.leb_le in Hrange. exact Hrange. }
    intros labels. unfold response_registry. fold status in Hn. rewrite Hn. simpl.
    rewrite (proj2 (status_in_range n) Hrange), Hq.
    rewrite counter_inc_value;
      [| unfold fresh_http_requests; eauto | rewrite Hr2; exact Hst].
    f_equal. now apply Registry_counterValue_ext.
  - intros Hout labels.
    apply Registry_counterValue_ext. rewrite <- Hr2. f_equal.
    unfold response_registry.
    destruct status as [n|]; [| reflexivity]. simpl.
    destruct ((2 <=? Z.quot n 100) && (Z.quot n 100 <=? 5)) eqn:Er; [| reflexivity].
    apply status_in_range in Er. destruct (Hout n eq_refl) as [Hn | [Hn _]]; lia.
Qed.

End Reporting.

(** ** The scenarios of the test suite *)

Example metrics_initial :
  metrics Q_toString (new_PrometheusReporter [])
  = "# HELP operations Duration of operations in second" +:+ NL
    +:+ "# TYPE operations histogram" +:+ NL.
Proof. reflexivity. Qed.

Example endpointName_root :
  endpointName sample_URL (httpSpan "http://localhost:9392/" 200 100) = Return "HTTP-GET-/".
Proof. reflexivity. Qed.

Example endpointName_pets :
  endpointName sample_URL
    (span_of "http_request" 300
       [(HTTP_METHOD, VString "POST"); (HTTP_STATUS_CODE, VNumber 201);
        (SPAN_KIND, VString SPAN_KIND_RPC_SERVER);
        (HTTP_URL, VString "http://localhost:9392/pets")])
  = Return "HTTP-POST-/pets".
Proof. reflexivity. Qed.

Example operations_scenario :
  let this := reportAll sample_URL (new_PrometheusReporter [])
                [span_of "my-operation" 100 []; span_of "my-operation" 300 []] in
  let hv := histogramValue this "operations" ["my-operation"] in
  bucketCounts hv = [0; 0; 0; 0; 1; 1; 2; 2; 2; 2; 2; 2]
  /\ Q_toString (sum hv) = "0.4" /\ count hv = 2.
Proof. vm_compute. auto. Qed.

Example http_scenario :
  let this := reportAll sample_URL (new_PrometheusReporter [(HTTP_URL, re_literal "bar")])
                [httpSpan "http://127.0.0.1/foo" 200 100;
                 httpSpan "http://127.0.0.1/bar" 200 300] in
  counterValue this "requests" ["HTTP-GET-/foo"; "false"] = 1
  /\ counterValue this "http_requests" ["HTTP-GET-/foo"; "2xx"] = 1
  /\ bucketCounts (histogramValue this "request_latency" ["HTTP-GET-/foo"; "false"])
     = [0; 0; 0; 0; 1; 1; 1; 1; 1; 1; 1; 1]
  /\ map fst (_registry this) = ["operations"; "requests"; "request_latency"; "http_requests"].
Proof. vm_compute. auto. Qed.

(** ** Instances of the theorems *)

Lemma histogram_invariants_witness :
  let spans := [span_of "my-operation" 100 []; span_of "my-operation" 300 []] in
  let this := reportAll sample_URL (new_PrometheusReporter []) spans in
  let obs := observed sample_URL [] spans "operations" ["my-operation"] in
  exists h hv,
    getSingleMetric (_registry this) "operations" = Some (MHistogram h)
    /\ alookup ["my-operation"] (h_hashMap h) = Some hv
    /\ bucketCounts hv = [0; 0; 0; 0; 1; 1; 2; 2; 2; 2; 2; 2]
    /\ ("operations" = METRICS_NAME_OPERATION
        \/ "operations" = METRICS_NAME_HTTP_REQUEST_LATENCY)
    /\ (forall (i j : nat) (a b : Z),
          (i <= j)%nat -> bucketCounts hv !! i = Some a -> bucketCounts hv !! j = Some b ->
          a <= b)
    /\ bucketValues hv = map (count_le obs) (upperBounds h)
    /\ List.last (bucketCounts hv) 0 = count hv
    /\ count hv = Z.of_nat (length obs)
    /\ (sum hv == Qsum obs)%Q.
Proof.
  intros spans this obs.
  eexists. eexists.
  split; [vm_compute; reflexivity |].
  split; [vm_compute; reflexivity |].
  split; [vm_compute; reflexivity |].
  exact (histogram_invariants sample_URL [] spans "operations" _ ["my-operation"] _
           eq_refl eq_refl).
Defined.

Lemma reportFinish_ignored_frame_witness :
  let this := reportAll sample_URL (new_PrometheusReporter [(HTTP_URL, re_literal "bar")])
                [httpSpan "http://127.0.0.1/foo" 200 100] in
  let span := httpSpan "http://127.0.0.1/bar" 200 300 in
  ignoreTags this = [] ++ (HTTP_URL, re_literal "bar") :: []
  /\ rule_matches span (HTTP_URL, re_literal "bar") = true
  /\ reportFinish sample_URL this span = (Return tt, this)
  /\ metrics Q_toString (snd (reportFinish sample_URL this span)) = metrics Q_toString this.
Proof.
  intros this span.
  split; [reflexivity |]. split; [reflexivity |].
  apply (reportFinish_ignored_frame sample_URL Q_toString this span
           [] [] (HTTP_URL, re_literal "bar")).
  - reflexivity.
  - reflexivity.
  - intros r [].
Defined.

Lemma reportFinish_http_status_witness :
  let span := httpSpan "http://127.0.0.1/foo" 404 100 in
  let this := reportAll sample_URL (new_PrometheusReporter []) [] in
  let result := reportFinish sample_URL this span in
  isIgnored [] span = Return false
  /\ isHttpServerSpan span = true
  /\ endpointName sample_URL span = Return "HTTP-GET-/foo"
  /\ parseInt (getTag span HTTP_STATUS_CODE) = Some 404
  /\ counterValue (snd result) METRICS_NAME_REQUESTS ["HTTP-GET-/foo"; "false"]
     = counterValue this METRICS_NAME_REQUESTS ["HTTP-GET-/foo"; "false"] + 1
  /\ counterValue (snd result) METRICS_NAME_HTTP_STATUS_CODES ["HTTP-GET-/foo"; "4xx"]
     = counterValue this METRICS_NAME_HTTP_STATUS_CODES ["HTTP-GET-/foo"; "4xx"] + 1.
Proof.
  intros span this result.
  split; [reflexivity |]. split; [reflexivity |]. split; [reflexivity |].
  split; [reflexivity |].
  destruct (reportFinish_http_status sample_URL [] [] span "HTTP-GET-/foo"
              eq_refl eq_refl eq_refl) as (_ & Hreq & _ & Hst & _).
  split; [exact Hreq |].
  destruct (Hst 404 eq_refl ltac:(lia)) as [_ H].
  exact (H ["HTTP-GET-/foo"; "4xx"]).
Defined.

Lemma endpointName_spec_witness :
  let span := httpSpan "http://127.0.0.1/foo" 200 100 in
  getTag span HTTP_URL = Some (VString "http://127.0.0.1/foo")
  /\ sample_URL (VString "http://127.0.0.1/foo")
     = Some {| protocol := "http:"; pathname := "/foo" |}
  /\ getTag span HTTP_METHOD = Some (VString "GET")
  /\ endpointName sample_URL span = Return "HTTP-GET-/foo".
Proof.
  intros span.
  split; [reflexivity |]. split; [reflexivity |]. split; [reflexivity |].
  destruct (endpointName_spec sample_URL span) as (_ & _ & _ & H).
  apply H; reflexivity.
Defined.

Lemma reportFinish_malformed_url_witness :
  let this := new_PrometheusReporter [] in
  let span := httpSpan "/foo" 200 100 in
  isHttpServerSpan span = true
  /\ getTag span HTTP_URL = Some (VString "/foo")
  /\ sample_URL (VString "/foo") = None
  /\ snd (reportFinish sample_URL this span) = this
  /\ reportFinish sample_URL this span = (Throw ERR_INVALID_URL, this).
Proof.
  intros this span.
  split; [reflexivity |]. split; [reflexivity |]. split; [reflexivity |].
  destruct (reportFinish_malformed_url sample_URL this span (VString "/foo")
              eq_refl eq_refl eq_refl eq_refl) as [H1 H2].
  split; [exact H1 | exact (H2 eq_refl)].
Defined.

Lemma reportFinish_filter_type_error_witness :
  let this := new_PrometheusReporter [(HTTP_STATUS_CODE, re_literal "200")] in
  let span := httpSpan "http://127.0.0.1/foo" 200 100 in
  no_match_method (getTag span HTTP_STATUS_CODE) = true
  /\ reportFinish sample_URL this span = (Throw (TypeError_not_a_function "match"), this).
Proof.
  intros this span.
  split; [reflexivity |].
  destruct (reportFinish_filter_type_error sample_URL this span) as [H _].
  apply (H [] [] (HTTP_STATUS_CODE, re_literal "200")).
  - reflexivity.
  - reflexivity.
  - intros r [].
Defined.

Lemma reportFinish_no_method_witness :
  let this := new_PrometheusReporter [] in
  let span := span_of "http_request" 100
                [(HTTP_URL, VString "http://127.0.0.1/foo");
                 (SPAN_KIND, VString SPAN_KIND_RPC_SERVER)] in
  getTag span HTTP_URL = Some (VString "http://127.0.0.1/foo")
  /\ sample_URL (VString "http://127.0.0.1/foo")
     = Some {| protocol := "http:"; pathname := "/foo" |}
  /\ getTag span HTTP_METHOD = None
  /\ isHttpServerSpan span = true
  /\ endpointName sample_URL span = Throw (TypeError_undefined "toUpperCase")
  /\ reportFinish sample_URL this span = (Throw (TypeError_undefined "toUpperCase"), this).
Proof.
  intros this span.
  split; [reflexivity |]. split; [reflexivity |]. split; [reflexivity |].
  split; [reflexivity |].
  destruct (reportFinish_no_method sample_URL this span
              (VString "http://127.0.0.1/foo") {| protocol := "http:"; pathname := "/foo" |}
              eq_refl eq_refl eq_refl eq_refl) as [H1 H2].
  split; [exact H1 | exact (H2 eq_refl eq_refl)].
Defined.

(** ** Where the claims, as stated, fail *)

(** C2, as stated, fails.  The rule [/^$/] on [component] matches the empty
    string the span carries under that key, yet the empty string is falsy,
    the span is not ignored and an operation is recorded.  And a span whose
    URL matches the second rule does not make the call return when the
    numeric status code under the first rule's key has no [match] method. *)
Lemma reportFinish_ignored_counterexample :
  (let this := new_PrometheusReporter [("component", re_empty)] in
   let span := span_of "my-operation" 100 [("component", VString EmptyString)] in
   In ("component", re_empty) (ignoreTags this)
   /\ getTag span "component" = Some (VString EmptyString)
   /\ re_empty EmptyString = true
   /\ reportFinish sample_URL this span <> (Return tt, this)
   /\ metrics Q_toString (snd (reportFinish sample_URL this span)) <> metrics Q_toString this
   /\ histogramValue (snd (reportFinish sample_URL this span)) "operations" ["my-operation"]
      = observeValue DURATION_HISTOGRAM_BUCKETS (100 / 1000)%Q
          (createBaseValues DURATION_HISTOGRAM_BUCKETS))
  /\ (let this := new_PrometheusReporter
                    [(HTTP_STATUS_CODE, re_literal "200"); (HTTP_URL, re_literal "bar")] in
      let span := httpSpan "http://127.0.0.1/bar" 200 300 in
      In (HTTP_URL, re_literal "bar") (ignoreTags this)
      /\ getTag span HTTP_URL = Some (VString "http://127.0.0.1/bar")
      /\ re_literal "bar" "http://127.0.0.1/bar" = true
      /\ reportFinish sample_URL this span
         = (Throw (TypeError_not_a_function "match"), this)).
Proof.
  split.
  - intros this span.
    split; [now left |]. split; [reflexivity |]. split; [reflexivity |].
    assert (H : metrics Q_toString (snd (reportFinish sample_URL this span))
                <> metrics Q_toString this).
    { vm_compute. discriminate. }
    split; [| split; [exact H | reflexivity]].
    intros E. apply H. now rewrite E.
  - intros this span.
    split; [right; now left |]. repeat (split; [reflexivity |]). reflexivity.
Qed.

(** C4, as stated, fails: 1234 has the hundreds digit 2, yet a span with
    that status code is recorded without any [http_requests] label being
    incremented. *)
Lemma reportFinish_http_status_counterexample :
  let this := new_PrometheusReporter [] in
  let span := httpSpan "http://127.0.0.1/foo" 1234 100 in
  let result := reportFinish sample_URL this span in
  isHttpServerSpan span = true
  /\ parseInt (getTag span HTTP_STATUS_CODE) = Some 1234
  /\ hundreds_digit 1234 = 2
  /\ fst result = Return tt
  /\ counterValue (snd result) "requests" ["HTTP-GET-/foo"; "false"] = 1
  /\ counterValue (snd result) "http_requests" ["HTTP-GET-/foo"; "2xx"]
     <> counterValue this "http_requests" ["HTTP-GET-/foo"; "2xx"] + 1
  /\ getSingleMetric (_registry (snd result)) "http_requests" = None.
Proof.
  intros this span result.
  repeat (split; [reflexivity |]).
  split; [| reflexivity].
  vm_compute. discriminate.
Qed.

(** C5, as stated, fails.  A span with an HTTP-URL tag that parses and no
    HTTP-METHOD tag gets no label at all; and a span whose HTTP-URL tag is
    the empty string has the tag, yet is labelled "other". *)
Lemma endpointName_counterexample :
  (let span := span_of "http_request" 100 [(HTTP_URL, VString "http://127.0.0.1/foo")] in
   getTag span HTTP_URL <> None
   /\ sample_URL (VString "http://127.0.0.1/foo")
      = Some {| protocol := "http:"; pathname := "/foo" |}
   /\ ~ exists label, endpointName sample_URL span = Return label)
  /\ (let span := span_of "http_request" 100
                    [(HTTP_URL, VString EmptyString); (HTTP_METHOD, VString "GET")] in
      getTag span HTTP_URL <> None
      /\ endpointName sample_URL span = Return "other").
Proof.
  split.
  - intros span.
    split; [discriminate |]. split; [reflexivity |].
    intros [label H]. discriminate H.
  - intros span. split; [discriminate | reflexivity].
Qed.

(** C8, as stated, fails.  An HTTP-server span whose URL does not parse but
    matches an ignore rule is dropped without any error; and one whose
    HTTP-URL tag is the empty string, which does not parse either, is
    labelled "other" and recorded. *)
Lemma reportFinish_malformed_url_counterexample :
  (let this := new_PrometheusReporter [(HTTP_URL, re_literal "bar")] in
   let span := httpSpan "/bar" 200 100 in
   isHttpServerSpan span = true
   /\ getTag span HTTP_URL = Some (VString "/bar")
   /\ sample_URL (VString "/bar") = None
   /\ reportFinish sample_URL this span = (Return tt, this)
   /\ fst (reportFinish sample_URL this span) <> Throw ERR_INVALID_URL)
  /\ (let this := new_PrometheusReporter [] in
      let span := httpSpan EmptyString 200 100 in
      let result := reportFinish sample_URL this span in
      isHttpServerSpan span = true
      /\ getTag span HTTP_URL = Some (VString EmptyString)
      /\ sample_URL (VString EmptyString) = None
      /\ fst result = Return tt
      /\ counterValue (snd result) "requests" ["other"; "false"] = 1
      /\ snd result <> this).
Proof.
  split.
  - intros this span.
    repeat (split; [reflexivity |]).
    discriminate.
  - intros this span result.
    repeat (split; [reflexivity |]).
    intros E. apply (f_equal (fun r => length (_registry r))) in E. discriminate E.
Qed.

(** C9, as stated, fails: the numeric status code under the second rule's
    key has no [match] method, yet the first rule matches and the span is
    ignored without any error. *)
Lemma reportFinish_filter_type_error_counterexample :
  let this := new_PrometheusReporter
                [(HTTP_URL, re_literal "foo"); (HTTP_STATUS_CODE, re_literal "200")] in
  let span := httpSpan "http://127.0.0.1/foo" 200 100 in
  In (HTTP_STATUS_CODE, re_literal "200") (ignoreTags this)
  /\ getTag span HTTP_STATUS_CODE = Some (VNumber 200)
  /\ truthy (VNumber 200) = true /\ is_string (VNumber 200) = false
  /\ reportFinish sample_URL this span = (Return tt, this)
  /\ ~ exists e, fst (reportFinish sample_URL this span) = Throw e.
Proof.
  intros this span.
  split; [right; now left |].
  repeat (split; [reflexivity |]).
  intros [e H]. discriminate H.
Qed.

(** C10, as stated, fails.  An HTTP-server span classified by its status
    code alone, with no URL and no method, is labelled "other" and recorded;
    and one with a URL and no method that an ignore rule matches is dropped;
    neither call throws. *)
Lemma reportFinish_no_method_counterexample :
  (let this := new_PrometheusReporter [] in
   let span := span_of "http_request" 100
                 [(HTTP_STATUS_CODE, VNumber 200); (SPAN_KIND, VString SPAN_KIND_RPC_SERVER)] in
   let result := reportFinish sample_URL this span in
   isHttpServerSpan span = true
   /\ getTag span HTTP_URL = None /\ getTag span HTTP_METHOD = None
   /\ endpointName sample_URL span = Return "other"
   /\ fst result = Return tt
   /\ counterValue (snd result) "requests" ["other"; "false"] = 1
   /\ counterValue (snd result) "http_requests" ["other"; "2xx"] = 1
   /\ ~ exists e, fst result = Throw e)
  /\ (let this := new_PrometheusReporter [(HTTP_URL, re_literal "foo")] in
      let span := span_of "http_request" 100
                    [(HTTP_URL, VString "http://127.0.0.1/foo");
                     (SPAN_KIND, VString SPAN_KIND_RPC_SERVER)] in
      isHttpServerSpan span = true
      /\ getTag span HTTP_METHOD = None
      /\ sample_URL (VString "http://127.0.0.1/foo")
         = Some {| protocol := "http:"; pathname := "/foo" |}
      /\ reportFinish sample_URL this span = (Return tt, this)).
Proof.
  split.
  - intros this span result.
    repeat (split; [reflexivity |]).
    intros [e H]. discriminate H.
  - intros this span. repeat (split; [reflexivity |]). reflexivity.
Qed.

(** * Further properties of the reporter *)

(** ** Names and labels *)

Lemma string_forallb_app (p : ascii -> bool) (s t : string) :
  string_forallb p (s +:+ t) = string_forallb p s && string_forallb p t.
Proof.
  induction s as [|c s IH]; simpl; [reflexivity |].
  now rewrite IH, andb_assoc.
Qed.

Lemma string_forallb_map (p : ascii -> bool) (f : ascii -> ascii) (s : string) :
  (forall c, p (f c) = true) -> string_forallb p (string_map f s) = true.
Proof.
  intros H. induction s as [|c s IH]; simpl; [reflexivity |].
  now rewrite H, IH.
Qed.

Lemma string_map_id_on (p : ascii -> bool) (f : ascii -> ascii) (s : string) :
  (forall c, p c = true -> f c = c) ->
  string_forallb p s = true -> string_map f s = s.
Proof.
  intros H. induction s as [|c s IH]; simpl; [reflexivity |].
  intros Hs. apply andb_true_iff in Hs as [Hc Hs].
  now rewrite (H c Hc), (IH Hs).
Qed.

Lemma NS_RE_replaced (c : ascii) : NS_RE (if NS_RE c then "_"%char else c) = false.
Proof. destruct (NS_RE c) eqn:E; [reflexivity | exact E]. Qed.

Lemma no_NS_RE_replace (s : string) :
  string_forallb (fun c => negb (NS_RE c)) (replace NS_RE "_" s) = true.
Proof.
  apply string_forallb_map. intros c. now rewrite NS_RE_replaced.
Qed.

Lemma metricName_clean (name namespace : string) :
  string_forallb (fun c => negb (NS_RE c)) (metricName name namespace) = true.
Proof.
  unfold metricName.
  destruct (str_empty namespace); [apply no_NS_RE_replace |].
  destruct (negb (str_empty name)); [apply no_NS_RE_replace |].
  rewrite !string_forallb_app, !no_NS_RE_replace. reflexivity.
Qed.

(** X1: whatever the name and the namespace, the result of [metricName]
    holds no dot and no dash. *)
Theorem metricName_no_dot_no_dash (name namespace : string) :
  string_forallb
    (fun c => negb (Ascii.eqb c "."%char) && negb (Ascii.eqb c "-"%char))
    (metricName name namespace) = true.
Proof.
  pose proof (metricName_clean name namespace) as H.
  revert H. generalize (metricName name namespace). intros s.
  induction s as [|c s IH]; simpl; [reflexivity |].
  intros H. apply andb_true_iff in H as [Hc Hs].
  rewrite (IH Hs), andb_true_r.
  rewrite NS_RE_spec in Hc. now rewrite <- negb_orb.
Qed.

(** X2: normalising a normalised metric name again, without a namespace,
    changes nothing. *)
Theorem metricName_idempotent (name namespace : string) :
  metricName (metricName name namespace) EmptyString = metricName name namespace.
Proof.
  unfold metricName at 1. simpl. unfold replace.
  apply string_map_id_on with (p := fun c => negb (NS_RE c)).
  - intros c Hc. now destruct (NS_RE c).
  - apply metricName_clean.
Qed.

Lemma allowed_normalized (c : ascii) : allowed (if allowed c then c else "-"%char) = true.
Proof. destruct (allowed c) eqn:E; [exact E | reflexivity]. Qed.

Lemma normalizeIdentifier_allowed (s : string) :
  string_forallb allowed (normalizeIdentifier s) = true.
Proof. apply string_forallb_map, allowed_normalized. Qed.

Lemma upcase_upcase (c : ascii) : upcase (upcase c) = upcase c.
Proof. destruct c as [[] [] [] [] [] [] [] []]; reflexivity. Qed.

Lemma upcase_downcase (c : ascii) : upcase (downcase c) = upcase c.
Proof. destruct c as [[] [] [] [] [] [] [] []]; reflexivity. Qed.

Lemma string_map_map (f g : ascii -> ascii) (s : string) :
  string_map f (string_map g s) = string_map (fun c => f (g c)) s.
Proof. induction s as [|c s IH]; simpl; [reflexivity | now rewrite IH]. Qed.

Lemma append_assoc (a b c : string) : (a +:+ b) +:+ c = a +:+ (b +:+ c).
Proof.
  induction a as [|x a IH]; [reflexivity | exact (f_equal (String x) IH)].
Qed.

Lemma toUpperCase_app (a b : string) :
  toUpperCase (a +:+ b) = toUpperCase a +:+ toUpperCase b.
Proof.
  induction a as [|x a IH]; [reflexivity |].
  change (toUpperCase (String x a +:+ b)) with (upper_unit x +:+ toUpperCase (a +:+ b)).
  change (toUpperCase (String x a)) with (upper_unit x +:+ toUpperCase a).
  now rewrite IH, append_assoc.
Qed.

Lemma upper_unit_fixed (c : ascii) : toUpperCase (upper_unit c) = upper_unit c.
Proof. destruct c as [[] [] [] [] [] [] [] []]; reflexivity. Qed.

Lemma upper_unit_downcase (c : ascii) : upper_unit (downcase c) = upper_unit c.
Proof. destruct c as [[] [] [] [] [] [] [] []]; reflexivity. Qed.

Lemma toUpperCase_toUpperCase (s : string) : toUpperCase (toUpperCase s) = toUpperCase s.
Proof.
  induction s as [|c s IH]; [reflexivity |].
  change (toUpperCase (String c s)) with (upper_unit c +:+ toUpperCase s).
  now rewrite toUpperCase_app, upper_unit_fixed, IH.
Qed.

Lemma toUpperCase_toLowerCase (s : string) : toUpperCase (toLowerCase s) = toUpperCase s.
Proof.
  induction s as [|c s IH]; [reflexivity |].
  change (toUpperCase (toLowerCase (String c s)))
    with (upper_unit (downcase c) +:+ toUpperCase (toLowerCase s)).
  change (toUpperCase (String c s)) with (upper_unit c +:+ toUpperCase s).
  now rewrite upper_unit_downcase, IH.
Qed.

(** X5: [getParentService] returns the parent-service key of the span's
    context when it is a non-empty string, and "unknown" when the key is
    absent or empty; it never returns the empty string. *)
Theorem getParentService_nonempty (span : Span) :
  (forall key, parentServiceKey span = Some key -> key <> EmptyString ->
     getParentService span = key)
  /\ (parentServiceKey span = None \/ parentServiceKey span = Some EmptyString ->
      getParentService span = "unknown")
  /\ getParentService span <> EmptyString.
Proof.
  unfold getParentService.
  destruct (parentServiceKey span) as [[|c k]|]; simpl.
  - split; [intros key H; injection H as <-; congruence |].
    split; [reflexivity | discriminate].
  - split; [intros key H _; now injection H as <- |].
    split; [intros [H | H]; discriminate H | discriminate].
  - split; [discriminate |]. split; [reflexivity | discriminate].
Qed.

(** ** The ignore filter does not depend on the order of its rules, as long
    as no rule throws *)

Lemma some_existsb {A : Type} (callback : A -> completion bool) (test : A -> bool)
    (l : list A) :
  (forall x, In x l -> callback x = Return (test x)) ->
  some callback l = Return (existsb test l).
Proof.
  induction l as [|x l IH]; intros H; simpl; [reflexivity |].
  rewrite (H x) by now left.
  destruct (test x); [reflexivity |].
  apply IH. intros y Hy. apply H. now right.
Qed.

Lemma isIgnored_existsb (span : Span) (rules : list (string * RegExp)) :
  (forall r, In r rules -> no_match_method (getTag span r.1) = false) ->
  isIgnored rules span = Return (existsb (rule_matches span) rules).
Proof.
  intros H. apply some_existsb. intros r Hr.
  now rewrite ignoreCallback_cases, (H r Hr).
Qed.

Lemma existsb_Permutation {A : Type} (test : A -> bool) (l l' : list A) :
  Permutation l l' -> existsb test l = existsb test l'.
Proof.
  induction 1 as [| x l l' _ IH | x y l | l l' l'' _ IH1 _ IH2]; simpl.
  - reflexivity.
  - now rewrite IH.
  - now destruct (test x), (test y).
  - now rewrite IH1.
Qed.

(** X13: when no rule of the ignore filter finds a truthy value that is not
    a string under its key, the filter returns, its answer is whether some
    rule finds a non-empty string its pattern matches, and rules given in
    another order give the same answer. *)
Theorem isIgnored_order_independent (span : Span) (rules rules' : list (string * RegExp)) :
  (forall r, In r rules -> no_match_method (getTag span r.1) = false) ->
  Permutation rules rules' ->
  isIgnored rules span = Return (existsb (rule_matches span) rules)
  /\ isIgnored rules' span = isIgnored rules span.
Proof.
  intros H Hp.
  assert (H' : forall r, In r rules' -> no_match_method (getTag span r.1) = false).
  { intros r Hr. apply H. apply Permutation_sym in Hp.
    now apply (Permutation_in r Hp). }
  rewrite (isIgnored_existsb span rules H), (isIgnored_existsb span rules' H').
  split; [reflexivity |]. f_equal. symmetry. now apply existsb_Permutation.
Qed.

Lemma isIgnored_order_independent_witness :
  let span := httpSpan "http://127.0.0.1/bar" 200 100 in
  let rules := [(HTTP_METHOD, re_literal "POST"); (HTTP_URL, re_literal "bar")] in
  let rules' := [(HTTP_URL, re_literal "bar"); (HTTP_METHOD, re_literal "POST")] in
  isIgnored rules span = Return true /\ isIgnored rules' span = isIgnored rules span.
Proof.
  intros span rules rules'.
  apply (isIgnored_order_independent span rules rules').
  - intros r [<- | [<- | []]]; reflexivity.
  - apply perm_swap.
Defined.

(** ** The singletons *)

Lemma ensure_idempotent (name : string) (fresh : Metric) (r : Registry) :
  ensure name fresh (ensure name fresh r) = ensure name fresh r.
Proof.
  unfold ensure at 1. rewrite lookup_ensure.
  destruct (getSingleMetric r name); [reflexivity |].
  now rewrite decide_True.
Qed.

Lemma ensure_keeps (name name' : string) (fresh m : Metric) (r : Registry) :
  getSingleMetric r name' = Some m ->
  getSingleMetric (ensure name fresh r) name' = Some m.
Proof. intros H. now rewrite lookup_ensure, H. Qed.

Lemma ensure_registered (name : string) (fresh : Metric) (r : Registry) :
  getSingleMetric (ensure name fresh r) name <> None.
Proof.
  rewrite lookup_ensure. destruct (getSingleMetric r name); [discriminate |].
  now rewrite decide_True.
Qed.

Lemma singletons_ensure (f : PrometheusReporter -> PrometheusReporter * string) :
  In f singletons ->
  exists name fresh,
    forall this, f this = (set_registry this (ensure name fresh (_registry this)), name).
Proof.
  intros [<- | [<- | [<- | [<- | []]]]].
  - exists METRICS_NAME_OPERATION, fresh_operations.
    intros this. unfold _metricsOperationDurationSeconds, ensure, registerMetric.
    destruct (getSingleMetric _ _); [now destruct this | reflexivity].
  - exists METRICS_NAME_HTTP_REQUEST_LATENCY, fresh_request_latency.
    intros this. unfold _metricsHttpRequestLatency, ensure, registerMetric.
    destruct (getSingleMetric _ _); [now destruct this | reflexivity].
  - exists METRICS_NAME_REQUESTS, fresh_requests.
    intros this. unfold _metricsHttpRequestCount, ensure, registerMetric.
    destruct (getSingleMetric _ _); [now destruct this | reflexivity].
  - exists METRICS_NAME_HTTP_STATUS_CODES, fresh_http_requests.
    intros this. unfold _metricsHttpRequestStatusCodes, ensure, registerMetric.
    destruct (getSingleMetric _ _); [now destruct this | reflexivity].
Qed.

(** X6: each of the four singletons returns a reference to a registered
    metric, keeps every metric already registered as it is, accumulated
    values included, and called a second time changes nothing. *)
Theorem singletons_idempotent (this : PrometheusReporter) :
  Forall
    (fun f : PrometheusReporter -> PrometheusReporter * string =>
       getSingleMetric (_registry (fst (f this))) (snd (f this)) <> None
       /\ (forall name m,
             getSingleMetric (_registry this) name = Some m ->
             getSingleMetric (_registry (fst (f this))) name = Some m)
       /\ f (fst (f this)) = f this)
    singletons.
Proof.
  apply List.Forall_forall. intros f Hf.
  destruct (singletons_ensure f Hf) as (name & fresh & E).
  rewrite !E. simpl. split; [apply ensure_registered |].
  split; [intros n m; apply ensure_keeps |].
  unfold set_registry. simpl. now rewrite ensure_idempotent.
Qed.

(** ** What one recording step does to the registry *)

Lemma alookup_existsb {V : Type} (k : string) (l : list (string * V)) :
  alookup k l = None <-> existsb (String.eqb k) (map fst l) = false.
Proof.
  induction l as [|[k' v] l IH]; simpl; [tauto |].
  destruct (decide (k = k')) as [->|Hne].
  - rewrite String.eqb_refl. simpl. split; discriminate.
  - apply String.eqb_neq in Hne. rewrite Hne. simpl. exact IH.
Qed.

Lemma map_fst_aset {V : Type} (k : string) (v : V) (l : list (string * V)) :
  alookup k l <> None -> map fst (aset k v l) = map fst l.
Proof.
  induction l as [|[k' v'] l IH]; simpl; [congruence |].
  destruct (decide (k = k')) as [->|Hne]; simpl; [reflexivity |].
  intros H. now rewrite IH.
Qed.

Lemma map_fst_update (name : string) (f : Metric -> Metric) (r : Registry) :
  map fst (Registry_update name f r) = map fst r.
Proof.
  unfold Registry_update. destruct (alookup name r) eqn:E; [| reflexivity].
  apply map_fst_aset. congruence.
Qed.

Lemma map_fst_ensure (name : string) (fresh : Metric) (r : Registry) :
  map fst (ensure name fresh r) = ensure_name name (map fst r).
Proof.
  unfold ensure, ensure_name, getSingleMetric.
  destruct (alookup name r) eqn:E.
  - destruct (existsb (String.eqb name) (map fst r)) eqn:E'; [reflexivity |].
    apply alookup_existsb in E'. congruence.
  - apply alookup_existsb in E. rewrite E. now rewrite map_app.
Qed.

Lemma response_registry_class (r : Registry) (endpoint : string) (statusCode : option Z) :
  response_registry r endpoint statusCode =
    match status_class statusCode with
    | Some c =>
        Registry_update METRICS_NAME_HTTP_STATUS_CODES (Metric_inc [endpoint; c])
          (ensure METRICS_NAME_HTTP_STATUS_CODES fresh_http_requests r)
    | None => r
    end.
Proof.
  unfold response_registry, status_class.
  destruct (parseInt_div100 statusCode) as [m|]; [| reflexivity].
  now destruct ((2 <=? m) && (m <=? 5)).
Qed.

Lemma status_class_values (statusCode : option Z) (c : string) :
  status_class statusCode = Some c -> In c ["2xx"; "3xx"; "4xx"; "5xx"].
Proof.
  unfold status_class.
  destruct (parseInt_div100 statusCode) as [m|]; [| discriminate].
  destruct ((2 <=? m) && (m <=? 5)) eqn:E; [| discriminate].
  apply andb_true_iff in E. rewrite !Z.leb_le in E.
  intros H. injection H as <-.
  assert (Hm : m = 2 \/ m = 3 \/ m = 4 \/ m = 5) by lia.
  destruct Hm as [-> | [-> | [-> | ->]]]; simpl; auto.
Qed.

Lemma errorValue_range (span : Span) : errorValue span = "true" \/ errorValue span = "false".
Proof.
  unfold errorValue. destruct (getTag span "error") as [err|]; [| now right].
  destruct (negb (truthy err) || _); auto.
Qed.

Lemma histogram_observe_value_at (r : Registry) (name : string) (fresh : Metric)
    (labels labels' : list string) (v : Q) :
  (exists h0, fresh = MHistogram h0 /\ h_hashMap h0 = []
              /\ upperBounds h0 = DURATION_HISTOGRAM_BUCKETS) ->
  (getSingleMetric r name = None
   \/ exists h, getSingleMetric r name = Some (MHistogram h)
                /\ upperBounds h = DURATION_HISTOGRAM_BUCKETS) ->
  Registry_histogramValue
    (Registry_update name (Metric_observe labels v) (ensure name fresh r)) name labels'
  = if decide (labels' = labels)
    then observeValue DURATION_HISTOGRAM_BUCKETS v (Registry_histogramValue r name labels')
    else Registry_histogramValue r name labels'.
Proof.
  intros (h0 & -> & Hm & HB) Hr. unfold Registry_histogramValue.
  rewrite lookup_update, decide_True by reflexivity.
  rewrite lookup_ensure, decide_True by reflexivity.
  destruct Hr as [-> | (h & -> & HB')]; simpl; rewrite alookup_aset.
  - destruct (decide (labels' = labels)) as [->|]; simpl; rewrite Hm, HB; reflexivity.
  - destruct (decide (labels' = labels)) as [->|]; simpl; rewrite ?HB'; reflexivity.
Qed.

Lemma operation_step (r : Registry) (log : list (string * list string * Q)) (span : Span) :
  registry_agrees r log ->
  (forall l,
      Registry_histogramValue (operation_registry r span) METRICS_NAME_OPERATION l
      = if decide (l = [operationName span])
        then observeValue DURATION_HISTOGRAM_BUCKETS (duration span / 1000)%Q
               (Registry_histogramValue r METRICS_NAME_OPERATION l)
        else Registry_histogramValue r METRICS_NAME_OPERATION l)
  /\ (forall name, name <> METRICS_NAME_OPERATION ->
        getSingleMetric (operation_registry r span) name = getSingleMetric r name)
  /\ map fst (operation_registry r span) = map fst r.
Proof.
  intros H. destruct (agrees_typed r log H) as ((h & Hop & HB) & _).
  split; [| split].
  - intros l. unfold operation_registry.
    apply histogram_observe_value_at; [unfold fresh_operations; eauto | eauto].
  - intros name Hn. unfold operation_registry.
    now rewrite lookup_update_other, lookup_ensure_other.
  - unfold operation_registry. rewrite map_fst_update.
    unfold ensure. now rewrite Hop.
Qed.

Lemma http_step (r : Registry) (log : list (string * list string * Q))
    (endpoint err : string) (d : Q) (statusCode : option Z) :
  registry_agrees r log ->
  let r' := response_registry (request_registry r endpoint err d) endpoint statusCode in
  (forall l,
      Registry_counterValue r' METRICS_NAME_REQUESTS l
      = Registry_counterValue r METRICS_NAME_REQUESTS l
        + (if decide (l = [endpoint; err]) then 1 else 0))
  /\ (forall l,
        Registry_histogramValue r' METRICS_NAME_HTTP_REQUEST_LATENCY l
        = if decide (l = [endpoint; err])
          then observeValue DURATION_HISTOGRAM_BUCKETS d
                 (Registry_histogramValue r METRICS_NAME_HTTP_REQUEST_LATENCY l)
          else Registry_histogramValue r METRICS_NAME_HTTP_REQUEST_LATENCY l)
  /\ (forall l,
        Registry_counterValue r' METRICS_NAME_HTTP_STATUS_CODES l
        = Registry_counterValue r METRICS_NAME_HTTP_STATUS_CODES l
          + match status_class statusCode with
            | Some c => if decide (l = [endpoint; c]) then 1 else 0
            | None => 0
            end)
  /\ (forall name,
        name <> METRICS_NAME_REQUESTS -> name <> METRICS_NAME_HTTP_REQUEST_LATENCY ->
        name <> METRICS_NAME_HTTP_STATUS_CODES ->
        getSingleMetric r' name = getSingleMetric r name)
  /\ map fst r'
     = (match status_class statusCode with
        | Some _ => ensure_name METRICS_NAME_HTTP_STATUS_CODES
        | None => fun names => names
        end)
         (ensure_name METRICS_NAME_HTTP_REQUEST_LATENCY
            (ensure_name METRICS_NAME_REQUESTS (map fst r))).
Proof.
  intros H r'.
  destruct (agrees_typed r log H) as (_ & Hlat & Hreq & Hst).
  assert (Hr2 : getSingleMetric (request_registry r endpoint err d)
                  METRICS_NAME_HTTP_STATUS_CODES
                = getSingleMetric r METRICS_NAME_HTTP_STATUS_CODES).
  { unfold request_registry.
    now rewrite lookup_update_other, lookup_ensure_other, lookup_update_other,
      lookup_ensure_other by discriminate. }
  assert (Hother : forall name, name <> METRICS_NAME_HTTP_STATUS_CODES ->
            getSingleMetric r' name
            = getSingleMetric (request_registry r endpoint err d) name).
  { intros name Hn. unfold r'. rewrite response_registry_class.
    destruct (status_class statusCode); [| reflexivity].
    now rewrite lookup_update_other, lookup_ensure_other. }
  split; [| split; [| split; [| split]]].
  - intros l.
    rewrite (Registry_counterValue_ext r'
               (Registry_update METRICS_NAME_REQUESTS (Metric_inc [endpoint; err])
                  (ensure METRICS_NAME_REQUESTS fresh_requests r))).
    + apply counter_inc_value; [unfold fresh_requests; eauto | exact Hreq].
    + rewrite Hother by discriminate. unfold request_registry.
      now rewrite lookup_update_other, lookup_ensure_other by discriminate.
  - intros l.
    rewrite (Registry_histogramValue_ext r' (request_registry r endpoint err d))
      by (apply Hother; discriminate).
    unfold request_registry.
    set (r1 := Registry_update METRICS_NAME_REQUESTS _ _).
    assert (Hr1 : getSingleMetric r1 METRICS_NAME_HTTP_REQUEST_LATENCY
                  = getSingleMetric r METRICS_NAME_HTTP_REQUEST_LATENCY).
    { unfold r1. now rewrite lookup_update_other, lookup_ensure_other by discriminate. }
    rewrite histogram_observe_value_at;
      [| unfold fresh_request_latency; eauto | rewrite Hr1; exact Hlat].
    rewrite (Registry_histogramValue_ext r1 r) by exact Hr1. reflexivity.
  - intros l. unfold r'. rewrite response_registry_class.
    destruct (status_class statusCode) as [c|].
    + rewrite counter_inc_value;
        [| unfold fresh_http_requests; eauto | rewrite Hr2; exact Hst].
      f_equal. now apply Registry_counterValue_ext.
    + rewrite Z.add_0_r. now apply Registry_counterValue_ext.
  - intros name H1 H2 H3. rewrite Hother by exact H3. unfold request_registry.
    now rewrite lookup_update_other, lookup_ensure_other, lookup_update_other,
      lookup_ensure_other.
  - unfold r'. rewrite response_registry_class.
    assert (E : map fst (request_registry r endpoint err d)
                = ensure_name METRICS_NAME_HTTP_REQUEST_LATENCY
                    (ensure_name METRICS_NAME_REQUESTS (map fst r))).
    { unfold request_registry.
      now rewrite map_fst_update, map_fst_ensure, map_fst_update, map_fst_ensure. }
    destruct (status_class statusCode); [| exact E].
    now rewrite map_fst_update, map_fst_ensure, E.
Qed.

Section Coverage.

Variable URL_new : value -> option URL.

Lemma reportFinish_cases (this : PrometheusReporter) (span : Span) :
  snd (reportFinish URL_new this span) = this
  \/ (isIgnored (ignoreTags this) span = Return false
      /\ isHttpServerSpan span = false
      /\ reportFinish URL_new this span
         = (Return tt, set_registry this (operation_registry (_registry this) span)))
  \/ (exists endpoint,
        isIgnored (ignoreTags this) span = Return false
        /\ isHttpServerSpan span = true
        /\ endpointName URL_new span = Return endpoint
        /\ reportFinish URL_new this span
           = (Return tt,
              set_registry this
                (response_registry
                   (request_registry (_registry this) endpoint (errorValue span)
                      (duration span / 1000)%Q)
                   endpoint (parseInt (getTag span HTTP_STATUS_CODE))))).
Proof.
  destruct (isIgnored (ignoreTags this) span) as [[] | e] eqn:Hi.
  - left. now rewrite reportFinish_ignored.
  - destruct (isHttpServerSpan span) eqn:Hh.
    + destruct (endpointName URL_new span) as [endpoint | e] eqn:He.
      * right. right. exists endpoint. repeat split; try reflexivity.
        now apply reportFinish_http.
      * left. now rewrite (reportFinish_endpoint_throws URL_new this span e).
    + right. left. repeat split; try reflexivity. now apply reportFinish_operation.
  - left. now rewrite (reportFinish_filter_throws URL_new this span e).
Qed.

Lemma reportAll_snoc (this : PrometheusReporter) (spans : list Span) (span : Span) :
  reportAll URL_new this (spans ++ [span])
  = snd (reportFinish URL_new (reportAll URL_new this spans) span).
Proof. unfold reportAll. now rewrite fold_left_app. Qed.

(** Induction over the states the reporter reaches. *)
Lemma reachable_ind (rules : list (string * RegExp)) (P : PrometheusReporter -> Prop) :
  P (new_PrometheusReporter rules) ->
  (forall history span,
      P (reportAll URL_new (new_PrometheusReporter rules) history) ->
      P (snd (reportFinish URL_new
                (reportAll URL_new (new_PrometheusReporter rules) history) span))) ->
  forall spans, P (reportAll URL_new (new_PrometheusReporter rules) spans).
Proof.
  intros H0 Hstep spans. induction spans as [|span spans IH] using rev_ind.
  - exact H0.
  - rewrite reportAll_snoc. now apply Hstep.
Qed.

(** ** Endpoint labels *)

Lemma endpointName_returns_allowed (span : Span) (label : string) :
  endpointName URL_new span = Return label ->
  string_forallb allowed label = true.
Proof.
  unfold endpointName.
  destruct (getTag span HTTP_URL) as [reqUrl|]; [| intros H; now injection H as <-].
  destruct (negb (truthy reqUrl)); [intros H; now injection H as <- |].
  destruct (URL_new reqUrl) as [url|]; [| discriminate].
  destruct (getTag span HTTP_METHOD) as [[m|n|b]|]; try discriminate.
  intros H. injection H as <-.
  rewrite replace_NORM_RE. apply normalizeIdentifier_allowed.
Qed.

(** X3: every label [endpointName] returns is made of the characters
    [A-Za-z0-9\-_/.] only; in particular it holds no space, no quote and no
    line break. *)
Theorem endpointName_label_chars (span : Span) (label : string) :
  endpointName URL_new span = Return label ->
  string_forallb allowed label = true.
Proof. apply endpointName_returns_allowed. Qed.

(** X4: for a method made of ASCII characters, the letter case of the
    HTTP-METHOD tag does not matter: two spans with the same HTTP-URL tag
    whose methods are such a string and its lower-case or upper-case form
    get the same result from [endpointName]. *)
Theorem endpointName_method_case (span span' : Span) (m : string) :
  string_forallb is_ascii m = true ->
  getTag span' HTTP_URL = getTag span HTTP_URL ->
  getTag span HTTP_METHOD = Some (VString m) ->
  getTag span' HTTP_METHOD = Some (VString (toLowerCase m))
  \/ getTag span' HTTP_METHOD = Some (VString (toUpperCase m)) ->
  endpointName URL_new span' = endpointName URL_new span.
Proof.
  intros _ Hu Hm Hm'. unfold endpointName. rewrite Hu, Hm.
  destruct (getTag span HTTP_URL) as [reqUrl|]; [| reflexivity].
  destruct (negb (truthy reqUrl)); [reflexivity |].
  destruct (URL_new reqUrl) as [url|]; [| reflexivity].
  destruct Hm' as [-> | ->].
  - now rewrite toUpperCase_toLowerCase.
  - now rewrite toUpperCase_toUpperCase.
Qed.

(** ** Calls that throw *)

(** X10: a call of [reportFinish] that throws records nothing: the reporter
    is left exactly as it was. *)
Theorem reportFinish_throw_frame (this : PrometheusReporter) (span : Span) (e : Exception) :
  fst (reportFinish URL_new this span) = Throw e ->
  snd (reportFinish URL_new this span) = this.
Proof.
  destruct (reportFinish_cases this span) as [H | [(_ & _ & H) | (ep & _ & _ & _ & H)]].
  - intros _. exact H.
  - rewrite H. discriminate.
  - rewrite H. discriminate.
Qed.

(** ** The registry along a run *)

Lemma shapes_step_operation (names : list string) :
  names = [METRICS_NAME_OPERATION]
  \/ names = [METRICS_NAME_OPERATION; METRICS_NAME_REQUESTS;
              METRICS_NAME_HTTP_REQUEST_LATENCY]
  \/ names = [METRICS_NAME_OPERATION; METRICS_NAME_REQUESTS;
              METRICS_NAME_HTTP_REQUEST_LATENCY; METRICS_NAME_HTTP_STATUS_CODES] ->
  forall sc : option string,
    let names' :=
      (match sc with
       | Some _ => ensure_name METRICS_NAME_HTTP_STATUS_CODES
       | None => fun names => names
       end)
        (ensure_name METRICS_NAME_HTTP_REQUEST_LATENCY
           (ensure_name METRICS_NAME_REQUESTS names)) in
    names' = [METRICS_NAME_OPERATION; METRICS_NAME_REQUESTS;
              METRICS_NAME_HTTP_REQUEST_LATENCY]
    \/ names' = [METRICS_NAME_OPERATION; METRICS_NAME_REQUESTS;
                 METRICS_NAME_HTTP_REQUEST_LATENCY; METRICS_NAME_HTTP_STATUS_CODES].
Proof.
  intros [-> | [-> | ->]] [c|]; simpl; auto.
Qed.

(** X7: in every state the reporter reaches, the registered metrics are, in
    registration order, [operations] alone, or [operations], [requests],
    [request_latency], or these three and [http_requests]: [operations] is
    always there and comes first, no name is registered twice, and the
    request metrics only appear together. *)
Theorem registry_names_shape (rules : list (string * RegExp)) (spans : list Span) :
  let names := registry_names (reportAll URL_new (new_PrometheusReporter rules) spans) in
  names = [METRICS_NAME_OPERATION]
  \/ names = [METRICS_NAME_OPERATION; METRICS_NAME_REQUESTS;
              METRICS_NAME_HTTP_REQUEST_LATENCY]
  \/ names = [METRICS_NAME_OPERATION; METRICS_NAME_REQUESTS;
              METRICS_NAME_HTTP_REQUEST_LATENCY; METRICS_NAME_HTTP_STATUS_CODES].
Proof.
  simpl. apply reachable_ind with
    (P := fun this =>
            registry_names this = [METRICS_NAME_OPERATION]
            \/ registry_names this = [METRICS_NAME_OPERATION; METRICS_NAME_REQUESTS;
                                      METRICS_NAME_HTTP_REQUEST_LATENCY]
            \/ registry_names this = [METRICS_NAME_OPERATION; METRICS_NAME_REQUESTS;
                                      METRICS_NAME_HTTP_REQUEST_LATENCY;
                                      METRICS_NAME_HTTP_STATUS_CODES]).
  - left. reflexivity.
  - intros history span IH.
    set (this := reportAll URL_new (new_PrometheusReporter rules) history) in *.
    pose proof (reachable_agrees URL_new rules history) as Hag. fold this in Hag.
    destruct (reportFinish_cases this span)
      as [H | [(_ & _ & H) | (ep & _ & _ & _ & H)]]; rewrite H; simpl.
    + exact IH.
    + unfold registry_names. simpl.
      destruct (operation_step _ _ span Hag) as (_ & _ & ->). exact IH.
    + unfold registry_names. simpl.
      destruct (http_step _ _ ep (errorValue span) (duration span / 1000)%Q
                  (parseInt (getTag span HTTP_STATUS_CODE)) Hag) as (_ & _ & _ & _ & ->).
      right. now apply shapes_step_operation.
Qed.

(** X8: a span that the filter lets through and that is not an HTTP-server
    span is recorded in the [operations] histogram under its operation name
    and nowhere else: the call returns, the other label sets of
    [operations] keep their values, every other metric is what it was, and
    no metric is registered. *)
Theorem reportFinish_operation_effect (rules : list (string * RegExp)) (history : list Span)
    (span : Span) :
  let this := reportAll URL_new (new_PrometheusReporter rules) history in
  let result := reportFinish URL_new this span in
  isIgnored rules span = Return false ->
  isHttpServerSpan span = false ->
  fst result = Return tt
  /\ (forall labels,
        histogramValue (snd result) METRICS_NAME_OPERATION labels
        = if decide (labels = [operationName span])
          then observeValue DURATION_HISTOGRAM_BUCKETS (duration span / 1000)%Q
                 (histogramValue this METRICS_NAME_OPERATION labels)
          else histogramValue this METRICS_NAME_OPERATION labels)
  /\ (forall name, name <> METRICS_NAME_OPERATION ->
        getSingleMetric (_registry (snd result)) name = getSingleMetric (_registry this) name)
  /\ registry_names (snd result) = registry_names this.
Proof.
  intros this result Hi Hh.
  pose proof (reachable_agrees URL_new rules history) as Hag. fold this in Hag.
  assert (Hrules : ignoreTags this = rules) by apply reportAll_ignoreTags.
  rewrite <- Hrules in Hi.
  unfold result. rewrite (reportFinish_operation URL_new this span Hi Hh).
  split; [reflexivity |].
  exact (operation_step _ _ span Hag).
Qed.

(** X9: an HTTP-server span that is recorded touches the [requests] counter
    and the [request_latency] histogram under its own (endpoint, error)
    label set only, leaves the [operations] histogram as it was, and
    registers nothing but the request metrics. *)
Theorem reportFinish_http_frame (rules : list (string * RegExp)) (history : list Span)
    (span : Span) (endpoint : string) :
  let this := reportAll URL_new (new_PrometheusReporter rules) history in
  let result := reportFinish URL_new this span in
  isIgnored rules span = Return false ->
  isHttpServerSpan span = true ->
  endpointName URL_new span = Return endpoint ->
  (forall labels, labels <> [endpoint; errorValue span] ->
     counterValue (snd result) METRICS_NAME_REQUESTS labels
     = counterValue this METRICS_NAME_REQUESTS labels
     /\ histogramValue (snd result) METRICS_NAME_HTTP_REQUEST_LATENCY labels
        = histogramValue this METRICS_NAME_HTTP_REQUEST_LATENCY labels)
  /\ (forall name,
        name <> METRICS_NAME_REQUESTS -> name <> METRICS_NAME_HTTP_REQUEST_LATENCY ->
        name <> METRICS_NAME_HTTP_STATUS_CODES ->
        getSingleMetric (_registry (snd result)) name = getSingleMetric (_registry this) name)
  /\ (forall labels,
        histogramValue (snd result) METRICS_NAME_OPERATION labels
        = histogramValue this METRICS_NAME_OPERATION labels).
Proof.
  intros this result Hi Hh He.
  pose proof (reachable_agrees URL_new rules history) as Hag. fold this in Hag.
  assert (Hrules : ignoreTags this = rules) by apply reportAll_ignoreTags.
  rewrite <- Hrules in Hi.
  unfold result. rewrite (reportFinish_http URL_new this span endpoint Hi Hh He).
  unfold counterValue, histogramValue. simpl.
  destruct (http_step _ _ endpoint (errorValue span) (duration span / 1000)%Q
              (parseInt (getTag span HTTP_STATUS_CODE)) Hag)
    as (Hreq & Hlat & _ & Hother & _).
  split; [| split].
  - intros labels Hl. rewrite Hreq, Hlat, !decide_False by exact Hl.
    split; [lia | reflexivity].
  - exact Hother.
  - intros labels. apply Registry_histogramValue_ext. apply Hother; discriminate.
Qed.

(** ** Counters along a run *)

Lemma agrees_histogramValue (r : Registry) (log : list (string * list string * Q))
    (name : string) (labels : list string) :
  registry_agrees r log ->
  name = METRICS_NAME_OPERATION \/ name = METRICS_NAME_HTTP_REQUEST_LATENCY ->
  Registry_histogramValue r name labels
  = hv_of DURATION_HISTOGRAM_BUCKETS (valuesOf name labels log).
Proof.
  intros H Hname. specialize (H name). unfold Registry_histogramValue.
  destruct (getSingleMetric r name) as [[h|c]|].
  - destruct H as (_ & HB & Hmap). rewrite HB, Hmap. apply default_entry_of.
  - destruct Hname as [->| ->]; destruct H; discriminate.
  - destruct H as [_ H]. now rewrite H.
Qed.

Lemma requests_match_latency (rules : list (string * RegExp)) (spans : list Span) :
  forall labels,
    counterValue (reportAll URL_new (new_PrometheusReporter rules) spans)
      METRICS_NAME_REQUESTS labels
    = count (histogramValue (reportAll URL_new (new_PrometheusReporter rules) spans)
               METRICS_NAME_HTTP_REQUEST_LATENCY labels).
Proof.
  apply reachable_ind with
    (P := fun this => forall labels,
            counterValue this METRICS_NAME_REQUESTS labels
            = count (histogramValue this METRICS_NAME_HTTP_REQUEST_LATENCY labels)).
  - intros labels. reflexivity.
  - intros history span IH labels.
    set (this := reportAll URL_new (new_PrometheusReporter rules) history) in *.
    pose proof (reachable_agrees URL_new rules history) as Hag. fold this in Hag.
    destruct (reportFinish_cases this span)
      as [H | [(_ & _ & H) | (ep & _ & _ & _ & H)]]; rewrite H; simpl.
    + apply IH.
    + unfold counterValue, histogramValue. simpl.
      destruct (operation_step _ _ span Hag) as (_ & Hother & _).
      rewrite (Registry_counterValue_ext _ (_registry this))
        by (apply Hother; discriminate).
      rewrite (Registry_histogramValue_ext _ (_registry this))
        by (apply Hother; discriminate).
      apply IH.
    + unfold counterValue, histogramValue. simpl.
      destruct (http_step _ _ ep (errorValue span) (duration span / 1000)%Q
                  (parseInt (getTag span HTTP_STATUS_CODE)) Hag) as (Hreq & Hlat & _).
      rewrite Hreq, Hlat. specialize (IH labels).
      unfold counterValue, histogramValue in IH. rewrite IH.
      destruct (decide (labels = [ep; errorValue span])); simpl; lia.
Qed.

(** X11: in every state the reporter reaches and for every label set, the
    [requests] counter equals the count of the [request_latency] histogram,
    and both are the number of HTTP-server spans recorded under that label
    set so far. *)
Theorem requests_count_recorded_spans (rules : list (string * RegExp)) (spans : list Span)
    (labels : list string) :
  let this := reportAll URL_new (new_PrometheusReporter rules) spans in
  counterValue this METRICS_NAME_REQUESTS labels
  = count (histogramValue this METRICS_NAME_HTTP_REQUEST_LATENCY labels)
  /\ counterValue this METRICS_NAME_REQUESTS labels
     = Z.of_nat (length (observed URL_new rules spans
                           METRICS_NAME_HTTP_REQUEST_LATENCY labels)).
Proof.
  intros this.
  pose proof (requests_match_latency rules spans labels) as E. fold this in E.
  split; [exact E |]. rewrite E.
  unfold histogramValue, this.
  rewrite (agrees_histogramValue _ _ METRICS_NAME_HTTP_REQUEST_LATENCY labels
             (reachable_agrees URL_new rules spans)) by now right.
  apply hv_of_count.
Qed.

(** X12: no call of [reportFinish] on a state the reporter reaches makes a
    counter or the count of a histogram smaller, for any label set. *)
Theorem counts_never_decrease (rules : list (string * RegExp)) (history : list Span)
    (span : Span) (labels : list string) :
  let this := reportAll URL_new (new_PrometheusReporter rules) history in
  let this' := snd (reportFinish URL_new this span) in
  counterValue this METRICS_NAME_REQUESTS labels
    <= counterValue this' METRICS_NAME_REQUESTS labels
  /\ counterValue this METRICS_NAME_HTTP_STATUS_CODES labels
     <= counterValue this' METRICS_NAME_HTTP_STATUS_CODES labels
  /\ count (histogramValue this METRICS_NAME_OPERATION labels)
     <= count (histogramValue this' METRICS_NAME_OPERATION labels)
  /\ count (histogramValue this METRICS_NAME_HTTP_REQUEST_LATENCY labels)
     <= count (histogramValue this' METRICS_NAME_HTTP_REQUEST_LATENCY labels).
Proof.
  intros this this'.
  pose proof (reachable_agrees URL_new rules history) as Hag. fold this in Hag.
  unfold this'.
  destruct (reportFinish_cases this span)
    as [H | [(_ & _ & H) | (ep & _ & _ & _ & H)]]; rewrite H; simpl.
  - repeat split; lia.
  - unfold counterValue, histogramValue. simpl.
    destruct (operation_step _ _ span Hag) as (Hop & Hother & _).
    rewrite (Registry_counterValue_ext (operation_registry (_registry this) span)
               (_registry this) METRICS_NAME_REQUESTS)
      by (apply Hother; discriminate).
    rewrite (Registry_counterValue_ext (operation_registry (_registry this) span)
               (_registry this) METRICS_NAME_HTTP_STATUS_CODES)
      by (apply Hother; discriminate).
    rewrite (Registry_histogramValue_ext (operation_registry (_registry this) span)
               (_registry this) METRICS_NAME_HTTP_REQUEST_LATENCY)
      by (apply Hother; discriminate).
    rewrite Hop.
    repeat split; try lia.
    destruct (decide (labels = [operationName span])); simpl; lia.
  - unfold counterValue, histogramValue. simpl.
    destruct (http_step _ _ ep (errorValue span) (duration span / 1000)%Q
                (parseInt (getTag span HTTP_STATUS_CODE)) Hag)
      as (Hreq & Hlat & Hst & Hother & _).
    rewrite Hreq, Hlat, Hst.
    rewrite (Registry_histogramValue_ext
               (response_registry
                  (request_registry (_registry this) ep (errorValue span)
                     (duration span / 1000)%Q)
                  ep (parseInt (getTag span HTTP_STATUS_CODE)))
               (_registry this) METRICS_NAME_OPERATION)
      by (apply Hother; discriminate).
    repeat split.
    + destruct (decide (labels = [ep; errorValue span])); lia.
    + destruct (status_class _) as [c|]; [| lia].
      destruct (decide (labels = [ep; c])); lia.
    + lia.
    + destruct (decide (labels = [ep; errorValue span])); simpl; lia.
Qed.

Lemma requests_labels (rules : list (string * RegExp)) (spans : list Span) :
  forall labels,
    counterValue (reportAll URL_new (new_PrometheusReporter rules) spans)
      METRICS_NAME_REQUESTS labels <> 0 ->
    exists endpoint err,
      labels = [endpoint; err]
      /\ string_forallb allowed endpoint = true
      /\ (err = "true" \/ err = "false").
Proof.
  apply reachable_ind with
    (P := fun this => forall labels,
            counterValue this METRICS_NAME_REQUESTS labels <> 0 ->
            exists endpoint err,
              labels = [endpoint; err]
              /\ string_forallb allowed endpoint = true
              /\ (err = "true" \/ err = "false")).
  - intros labels H. now contradict H.
  - intros history span IH labels.
    set (this := reportAll URL_new (new_PrometheusReporter rules) history) in *.
    pose proof (reachable_agrees URL_new rules history) as Hag. fold this in Hag.
    destruct (reportFinish_cases this span)
      as [H | [(_ & _ & H) | (ep & _ & _ & He & H)]]; rewrite H; simpl.
    + apply IH.
    + unfold counterValue. simpl.
      destruct (operation_step _ _ span Hag) as (_ & Hother & _).
      rewrite (Registry_counterValue_ext _ (_registry this))
        by (apply Hother; discriminate).
      apply IH.
    + unfold counterValue. simpl.
      destruct (http_step _ _ ep (errorValue span) (duration span / 1000)%Q
                  (parseInt (getTag span HTTP_STATUS_CODE)) Hag) as (Hreq & _).
      rewrite Hreq.
      destruct (decide (labels = [ep; errorValue span])) as [-> | Hne].
      * intros _. exists ep, (errorValue span).
        split; [reflexivity |].
        split; [now apply endpointName_returns_allowed with span |].
        apply errorValue_range.
      * rewrite Z.add_0_r. apply IH.
Qed.

Lemma http_requests_labels (rules : list (string * RegExp)) (spans : list Span) :
  forall labels,
    counterValue (reportAll URL_new (new_PrometheusReporter rules) spans)
      METRICS_NAME_HTTP_STATUS_CODES labels <> 0 ->
    exists endpoint class,
      labels = [endpoint; class]
      /\ string_forallb allowed endpoint = true
      /\ In class ["2xx"; "3xx"; "4xx"; "5xx"].
Proof.
  apply reachable_ind with
    (P := fun this => forall labels,
            counterValue this METRICS_NAME_HTTP_STATUS_CODES labels <> 0 ->
            exists endpoint class,
              labels = [endpoint; class]
              /\ string_forallb allowed endpoint = true
              /\ In class ["2xx"; "3xx"; "4xx"; "5xx"]).
  - intros labels H. now contradict H.
  - intros history span IH labels.
    set (this := reportAll URL_new (new_PrometheusReporter rules) history) in *.
    pose proof (reachable_agrees URL_new rules history) as Hag. fold this in Hag.
    destruct (reportFinish_cases this span)
      as [H | [(_ & _ & H) | (ep & _ & _ & He & H)]]; rewrite H; simpl.
    + apply IH.
    + unfold counterValue. simpl.
      destruct (operation_step _ _ span Hag) as (_ & Hother & _).
      rewrite (Registry_counterValue_ext _ (_registry this))
        by (apply Hother; discriminate).
      apply IH.
    + unfold counterValue. simpl.
      destruct (http_step _ _ ep (errorValue span) (duration span / 1000)%Q
                  (parseInt (getTag span HTTP_STATUS_CODE)) Hag) as (_ & _ & Hst & _).
      rewrite Hst.
      destruct (status_class (parseInt (getTag span HTTP_STATUS_CODE))) as [c|] eqn:Ec;
        [| rewrite Z.add_0_r; apply IH].
      destruct (decide (labels = [ep; c])) as [-> | Hne].
      * intros _. exists ep, c.
        split; [reflexivity |].
        split; [now apply endpointName_returns_allowed with span |].
        now apply status_class_values with (parseInt (getTag span HTTP_STATUS_CODE)).
      * rewrite Z.add_0_r. apply IH.
Qed.

(** X14: in every state the reporter reaches, a label set of the
    [http_requests] counter with a non-zero value is an endpoint made of the
    characters [A-Za-z0-9\-_/.] and one of the four classes "2xx", "3xx",
    "4xx", "5xx". *)
Theorem http_requests_label_sets (rules : list (string * RegExp)) (spans : list Span)
    (labels : list string) :
  counterValue (reportAll URL_new (new_PrometheusReporter rules) spans)
    METRICS_NAME_HTTP_STATUS_CODES labels <> 0 ->
  exists endpoint class,
    labels = [endpoint; class]
    /\ string_forallb allowed endpoint = true
    /\ In class ["2xx"; "3xx"; "4xx"; "5xx"].
Proof. apply http_requests_labels. Qed.

(** X15: in every state the reporter reaches, a label set of the [requests]
    counter with a non-zero value is an endpoint made of the characters
    [A-Za-z0-9\-_/.] and an error label that is "true" or "false". *)
Theorem requests_label_sets (rules : list (string * RegExp)) (spans : list Span)
    (labels : list string) :
  counterValue (reportAll URL_new (new_PrometheusReporter rules) spans)
    METRICS_NAME_REQUESTS labels <> 0 ->
  exists endpoint err,
    labels = [endpoint; err]
    /\ string_forallb allowed endpoint = true
    /\ (err = "true" \/ err = "false").
Proof. apply requests_labels. Qed.

(** ** Edge cases of the HTTP path *)

(** X16: an HTTP-server span without an HTTP-URL tag, or with a falsy one,
    that the filter lets through never makes the call throw, whatever its
    method tag: it is recorded under the endpoint "other". *)
Theorem reportFinish_http_without_url (rules : list (string * RegExp)) (history : list Span)
    (span : Span) :
  let this := reportAll URL_new (new_PrometheusReporter rules) history in
  let result := reportFinish URL_new this span in
  isIgnored rules span = Return false ->
  isHttpServerSpan span = true ->
  truthy_opt (getTag span HTTP_URL) = false ->
  fst result = Return tt
  /\ counterValue (snd result) METRICS_NAME_REQUESTS ["other"; errorValue span]
     = counterValue this METRICS_NAME_REQUESTS ["other"; errorValue span] + 1
  /\ count (histogramValue (snd result) METRICS_NAME_HTTP_REQUEST_LATENCY
              ["other"; errorValue span])
     = count (histogramValue this METRICS_NAME_HTTP_REQUEST_LATENCY
                ["other"; errorValue span]) + 1.
Proof.
  intros this result Hi Hh Hu.
  pose proof (reachable_agrees URL_new rules history) as Hag. fold this in Hag.
  assert (Hrules : ignoreTags this = rules) by apply reportAll_ignoreTags.
  rewrite <- Hrules in Hi.
  pose proof (endpointName_other URL_new span Hu) as He.
  unfold result. rewrite (reportFinish_http URL_new this span "other" Hi Hh He).
  unfold counterValue, histogramValue. simpl.
  destruct (http_step _ _ "other" (errorValue span) (duration span / 1000)%Q
              (parseInt (getTag span HTTP_STATUS_CODE)) Hag) as (Hreq & Hlat & _).
  rewrite Hreq, Hlat, !decide_True by reflexivity.
  split; [reflexivity |]. split; reflexivity.
Qed.

(** X17: with a truthy HTTP-URL tag that parses and an HTTP-METHOD tag that
    is a number or a boolean, [endpointName] throws the type error of a
    missing [toUpperCase] method, and [reportFinish] on an HTTP-server span
    leaves the reporter as it was. *)
Theorem reportFinish_method_not_a_string (this : PrometheusReporter) (span : Span)
    (reqUrl method : value) (url : URL) :
  getTag span HTTP_URL = Some reqUrl -> truthy reqUrl = true ->
  URL_new reqUrl = Some url ->
  getTag span HTTP_METHOD = Some method -> is_string method = false ->
  endpointName URL_new span = Throw (TypeError_not_a_function "toUpperCase")
  /\ (isHttpServerSpan span = true ->
      snd (reportFinish URL_new this span) = this)
  /\ (isHttpServerSpan span = true ->
      isIgnored (ignoreTags this) span = Return false ->
      fst (reportFinish URL_new this span)
      = Throw (TypeError_not_a_function "toUpperCase")).
Proof.
  intros Hu Ht Hp Hm Hs.
  assert (He : endpointName URL_new span = Throw (TypeError_not_a_function "toUpperCase")).
  { unfold endpointName. rewrite Hu, Ht. simpl. rewrite Hp, Hm.
    destruct method; [discriminate | reflexivity | reflexivity]. }
  split; [exact He |]. split.
  - intros Hh. unfold reportFinish, _reportHttpRequestFinish.
    destruct (isIgnored (ignoreTags this) span) as [[] | e]; try reflexivity.
    now rewrite Hh, He.
  - intros Hh Hi. now rewrite (reportFinish_endpoint_throws URL_new this span _ Hi Hh He).
Qed.

(** X18: [endpointName] throws exactly when the HTTP-URL tag is truthy and
    either does not parse or comes without a string HTTP-METHOD tag; in
    every other case it returns a label. *)
Theorem endpointName_throws_iff (span : Span) :
  (exists e, endpointName URL_new span = Throw e) <->
  (exists reqUrl,
      getTag span HTTP_URL = Some reqUrl /\ truthy reqUrl = true
      /\ (URL_new reqUrl = None
          \/ forall m, getTag span HTTP_METHOD <> Some (VString m))).
Proof.
  unfold endpointName. split.
  - intros [e H].
    destruct (getTag span HTTP_URL) as [reqUrl|]; [| discriminate].
    destruct (truthy reqUrl) eqn:Ht; [| discriminate]. simpl in H.
    exists reqUrl. split; [reflexivity |]. split; [exact Ht |].
    destruct (URL_new reqUrl) as [url|]; [| now left].
    right. intros m Hm. rewrite Hm in H. discriminate.
  - intros (reqUrl & -> & -> & H). simpl.
    destruct (URL_new reqUrl) as [url|]; [| eauto].
    destruct H as [H | H]; [discriminate |].
    destruct (getTag span HTTP_METHOD) as [[m|n|b]|]; eauto.
    exfalso. now apply (H m).
Qed.

End Coverage.

(** ** Instances of the further properties *)

Lemma endpointName_label_chars_witness :
  endpointName sample_URL (httpSpan "http://127.0.0.1/a~b?c=d" 200 100) = Return "HTTP-GET-/a-b"
  /\ string_forallb allowed "HTTP-GET-/a-b" = true.
Proof.
  split; [reflexivity |].
  exact (endpointName_label_chars sample_URL
           (httpSpan "http://127.0.0.1/a~b?c=d" 200 100) "HTTP-GET-/a-b" eq_refl).
Defined.


Lemma endpointName_method_case_witness :
  let span := httpSpan "http://127.0.0.1/foo" 200 100 in
  let span' := span_of "http_request" 5
                 [(HTTP_URL, VString "http://127.0.0.1/foo"); (HTTP_METHOD, VString "get")] in
  endpointName sample_URL span' = endpointName sample_URL span.
Proof.
  intros span span'.
  apply (endpointName_method_case sample_URL span span' "GET").
  - reflexivity.
  - reflexivity.
  - reflexivity.
  - left. reflexivity.
Defined.


Lemma reportFinish_throw_frame_witness :
  let this := reportAll sample_URL (new_PrometheusReporter [])
                [httpSpan "http://127.0.0.1/foo" 200 100] in
  let span := httpSpan "no url" 200 100 in
  fst (reportFinish sample_URL this span) = Throw ERR_INVALID_URL
  /\ snd (reportFinish sample_URL this span) = this.
Proof.
  intros this span.
  split; [reflexivity |].
  exact (reportFinish_throw_frame sample_URL this span ERR_INVALID_URL eq_refl).
Defined.


Lemma reportFinish_operation_effect_witness :
  let this := reportAll sample_URL (new_PrometheusReporter [])
                [httpSpan "http://127.0.0.1/foo" 200 100] in
  let span := span_of "my-operation" 300 [(HTTP_METHOD, VString "GET")] in
  let result := reportFinish sample_URL this span in
  isHttpServerSpan span = false
  /\ count (histogramValue (snd result) METRICS_NAME_OPERATION ["my-operation"]) = 1
  /\ getSingleMetric (_registry (snd result)) METRICS_NAME_REQUESTS
     = getSingleMetric (_registry this) METRICS_NAME_REQUESTS
  /\ registry_names (snd result) = registry_names this.
Proof.
  intros this span result.
  split; [reflexivity |].
  destruct (reportFinish_operation_effect sample_URL []
              [httpSpan "http://127.0.0.1/foo" 200 100] span eq_refl eq_refl)
    as (_ & Hop & Hother & Hnames).
  split; [| split; [apply Hother; discriminate | exact Hnames]].
  unfold result, this. rewrite (Hop ["my-operation"]). reflexivity.
Defined.


Lemma reportFinish_http_frame_witness :
  let history := [span_of "my-operation" 300 []; httpSpan "http://127.0.0.1/foo" 200 100] in
  let this := reportAll sample_URL (new_PrometheusReporter []) history in
  let span := httpSpan "http://127.0.0.1/bar" 500 100 in
  let result := reportFinish sample_URL this span in
  endpointName sample_URL span = Return "HTTP-GET-/bar"
  /\ counterValue (snd result) METRICS_NAME_REQUESTS ["HTTP-GET-/foo"; "false"] = 1
  /\ histogramValue (snd result) METRICS_NAME_OPERATION ["my-operation"]
     = histogramValue this METRICS_NAME_OPERATION ["my-operation"].
Proof.
  intros history this span result.
  split; [reflexivity |].
  destruct (reportFinish_http_frame sample_URL [] history span "HTTP-GET-/bar"
              eq_refl eq_refl eq_refl) as (Hreq & _ & Hop).
  split; [| exact (Hop ["my-operation"])].
  destruct (Hreq ["HTTP-GET-/foo"; "false"] ltac:(discriminate)) as [H _].
  unfold result, this. rewrite H. reflexivity.
Defined.

Lemma http_requests_label_sets_witness :
  let spans := [httpSpan "http://127.0.0.1/foo" 404 100] in
  counterValue (reportAll sample_URL (new_PrometheusReporter []) spans)
    METRICS_NAME_HTTP_STATUS_CODES ["HTTP-GET-/foo"; "4xx"] <> 0
  /\ exists endpoint class,
       ["HTTP-GET-/foo"; "4xx"] = [endpoint; class]
       /\ string_forallb allowed endpoint = true
       /\ In class ["2xx"; "3xx"; "4xx"; "5xx"].
Proof.
  intros spans.
  assert (H : counterValue (reportAll sample_URL (new_PrometheusReporter []) spans)
                METRICS_NAME_HTTP_STATUS_CODES ["HTTP-GET-/foo"; "4xx"] <> 0)
    by (vm_compute; discriminate).
  split; [exact H |].
  exact (http_requests_label_sets sample_URL [] spans ["HTTP-GET-/foo"; "4xx"] H).
Defined.

Lemma requests_label_sets_witness :
  let spans := [httpSpan "http://127.0.0.1/foo" 404 100] in
  counterValue (reportAll sample_URL (new_PrometheusReporter []) spans)
    METRICS_NAME_REQUESTS ["HTTP-GET-/foo"; "false"] <> 0
  /\ exists endpoint err,
       ["HTTP-GET-/foo"; "false"] = [endpoint; err]
       /\ string_forallb allowed endpoint = true
       /\ (err = "true" \/ err = "false").
Proof.
  intros spans.
  assert (H : counterValue (reportAll sample_URL (new_PrometheusReporter []) spans)
                METRICS_NAME_REQUESTS ["HTTP-GET-/foo"; "false"] <> 0)
    by (vm_compute; discriminate).
  split; [exact H |].
  exact (requests_label_sets sample_URL [] spans ["HTTP-GET-/foo"; "false"] H).
Defined.

Lemma reportFinish_http_without_url_witness :
  let this := reportAll sample_URL (new_PrometheusReporter []) [] in
  let span := span_of "http_request" 100
                [(HTTP_STATUS_CODE, VNumber 200); (SPAN_KIND, VString SPAN_KIND_RPC_SERVER)] in
  let result := reportFinish sample_URL this span in
  isHttpServerSpan span = true
  /\ truthy_opt (getTag span HTTP_URL) = false
  /\ fst result = Return tt
  /\ counterValue (snd result) METRICS_NAME_REQUESTS ["other"; "false"]
     = counterValue this METRICS_NAME_REQUESTS ["other"; "false"] + 1.
Proof.
  intros this span result.
  split; [reflexivity |]. split; [reflexivity |].
  destruct (reportFinish_http_without_url sample_URL [] [] span eq_refl eq_refl eq_refl)
    as (H1 & H2 & _).
  split; [exact H1 | exact H2].
Defined.

Lemma reportFinish_method_not_a_string_witness :
  let this := new_PrometheusReporter [] in
  let span := span_of "http_request" 100
                [(HTTP_URL, VString "http://127.0.0.1/foo"); (HTTP_METHOD, VNumber 1);
                 (SPAN_KIND, VString SPAN_KIND_RPC_SERVER)] in
  isHttpServerSpan span = true
  /\ endpointName sample_URL span = Throw (TypeError_not_a_function "toUpperCase")
  /\ reportFinish sample_URL this span
     = (Throw (TypeError_not_a_function "toUpperCase"), this).
Proof.
  intros this span.
  split; [reflexivity |].
  destruct (reportFinish_method_not_a_string sample_URL this span
              (VString "http://127.0.0.1/foo") (VNumber 1)
              {| protocol := "http:"; pathname := "/foo" |}
              eq_refl eq_refl eq_refl eq_refl eq_refl) as (H1 & H2 & H3).
  split; [exact H1 |].
  specialize (H2 eq_refl). specialize (H3 eq_refl eq_refl).
  destruct (reportFinish sample_URL this span) as [c t]. simpl in *. now subst.
Defined.

(** ** Code units above ASCII *)

(** The sharp s in a method becomes "SS"; a letter whose upper-case form is
    not in the class becomes a dash. *)
Example endpointName_sharp_s :
  endpointName sample_URL
    (span_of "http_request" 100
       [(HTTP_URL, VString "http://127.0.0.1/foo");
        (HTTP_METHOD, VString (String "223"%char EmptyString))])
  = Return "HTTP-SS-/foo".
Proof. reflexivity. Qed.

Example endpointName_e_acute :
  endpointName sample_URL
    (span_of "http_request" 100
       [(HTTP_URL, VString "http://127.0.0.1/foo");
        (HTTP_METHOD, VString (String "233"%char "x"))])
  = Return "HTTP--X-/foo".
Proof. reflexivity. Qed.

(** A no-break space ahead of the digits of a status code is skipped. *)
Example status_after_no_break_space :
  let span := span_of "http_request" 100
                [(HTTP_URL, VString "http://127.0.0.1/foo"); (HTTP_METHOD, VString "GET");
                 (HTTP_STATUS_CODE, VString (String "160"%char "404"));
                 (SPAN_KIND, VString SPAN_KIND_RPC_SERVER)] in
  parseInt (getTag span HTTP_STATUS_CODE) = Some 404
  /\ counterValue (snd (reportFinish sample_URL (new_PrometheusReporter []) span))
       "http_requests" ["HTTP-GET-/foo"; "4xx"] = 1.
Proof. vm_compute. auto. Qed.
